(** * cricbuzz_livestats: the response normalizer, the SQL gateway, the
      API client and the pages over them

    A shallow embedding of:

    - [pages/live_matches.py]: the tolerant reading of the scorecard and
      live-matches JSON documents ([show_innings_scorecard],
      [show_live_matches], [format_time]);
    - [utils/db_connection.py]: schema discovery, its helpers and the CRUD
      operations ([get_mysql_schema], [list_databases], [list_tables],
      [get_table_columns], [fetch_table], [run_select], [insert_row],
      [delete_rows], [execute_update]);
    - [utils/api_client.py]: the headers and the one GET of a call
      ([_get_headers], [_request] and the four endpoints);
    - [pages/crud_operations.py]: the preselection of a database and a
      table and the forms that call the gateway.

    Python values are an inductive type, exceptions are a [result] type,
    Streamlit output is a trace of events, and the MySQL server and the
    network are abstract state machines reached through the driver's and
    the HTTP library's calls, each of which is recorded in a log. *)

From Stdlib Require Import List String Ascii ZArith QArith Lia Bool.
From Stdlib Require Import DecimalString DecimalZ DecimalPos.
From Stdlib Require Import Permutation Sorted.
Import ListNotations.
Local Close Scope Q_scope.
Local Open Scope string_scope.

(* ================================================================== *)
(** ** Python values, exceptions and the state-and-exception monad *)
(* ================================================================== *)

Module Py.

(** A decoded JSON value.  Object keys are strings; a [PDict] keeps its
    items in insertion order, as a Python [dict] does, and a well-formed one
    has no repeated key.  A float is given by its exact rational value. *)
#[local] Unset Elimination Schemes.
Inductive pyval : Type :=
| PNone
| PBool (b : bool)
| PInt (z : Z)
| PFloat (q : Q)
| PStr (s : string)
| PList (l : list pyval)
| PDict (d : list (string * pyval)).
#[local] Set Elimination Schemes.

Definition dict : Type := list (string * pyval).

(** The exceptions the modelled code can raise or meet. *)
Inductive exn : Type :=
| ValueError (msg : string)
| TypeError
| AttributeError
| IndexError
| MySQLError (msg : string)          (* mysql.connector.Error *)
| PandasDatabaseError (msg : string) (* what pd.read_sql raises on a driver error *).

Inductive result (A : Type) : Type :=
| Ok (a : A)
| Raise (e : exn).
Arguments Ok {A} a.
Arguments Raise {A} e.

(** Computations over a state [S] that may raise; the state reached at a
    raise is kept, as side effects done before a Python exception are. *)
Definition M (S A : Type) : Type := S -> result A * S.

Definition ret {S A} (a : A) : M S A := fun s => (Ok a, s).

Definition raise {S A} (e : exn) : M S A := fun s => (Raise e, s).

Definition bind {S A B} (m : M S A) (k : A -> M S B) : M S B :=
  fun s => match m s with
           | (Ok a, s') => k a s'
           | (Raise e, s') => (Raise e, s')
           end.

Definition lift {S A} (r : result A) : M S A := fun s => (r, s).

(** Exception-only computations. *)
Definition rbind {A B} (r : result A) (k : A -> result B) : result B :=
  match r with
  | Ok a => k a
  | Raise e => Raise e
  end.

Fixpoint rmap {A B} (f : A -> result B) (l : list A) : result (list B) :=
  match l with
  | [] => Ok []
  | x :: xs => rbind (f x) (fun y => rbind (rmap f xs) (fun ys => Ok (y :: ys)))
  end.

(** [bool(v)]: Python truthiness. *)
Definition truthy (v : pyval) : bool :=
  match v with
  | PNone => false
  | PBool b => b
  | PInt z => negb (z =? 0)%Z
  | PFloat q => negb (Qnum q =? 0)%Z
  | PStr s => negb (s =? "")
  | PList l => match l with [] => false | _ :: _ => true end
  | PDict d => match d with [] => false | _ :: _ => true end
  end.

(** [a or b] on already evaluated operands (the operands used by the
    modelled code have no effect and cannot raise once the receiver is a
    dict). *)
Definition py_or (a b : pyval) : pyval := if truthy a then a else b.

Fixpoint lookup {V : Type} (k : string) (d : list (string * V)) : option V :=
  match d with
  | [] => None
  | (k', v) :: rest => if k' =? k then Some v else lookup k rest
  end.

(** [d.get(k, default)] and [d.get(k)]. *)
Definition get_default (d : dict) (k : string) (default : pyval) : pyval :=
  match lookup k d with
  | Some v => v
  | None => default
  end.

Definition get (d : dict) (k : string) : pyval := get_default d k PNone.

(** [d[k] = v]: an existing key keeps its place, a new one goes last. *)
Fixpoint dict_set {V : Type} (k : string) (v : V) (d : list (string * V))
  : list (string * V) :=
  match d with
  | [] => [(k, v)]
  | (k', v') :: rest =>
      if k' =? k then (k', v) :: rest else (k', v') :: dict_set k v rest
  end.

Definition keys {V : Type} (d : list (string * V)) : list string := map fst d.

Definition values {V : Type} (d : list (string * V)) : list V := map snd d.

(** The receiver of a [.get(...)] call: anything but a dict has no such
    attribute. *)
Definition as_dict (v : pyval) : result dict :=
  match v with
  | PDict d => Ok d
  | _ => Raise AttributeError
  end.

Definition is_list (v : pyval) : bool :=
  match v with PList _ => true | _ => false end.

Definition is_dict (v : pyval) : bool :=
  match v with PDict _ => true | _ => false end.

Fixpoint chars (s : string) : list pyval :=
  match s with
  | EmptyString => []
  | String a rest => PStr (String a EmptyString) :: chars rest
  end.

(** What a [for] loop (or [enumerate]) iterates over. *)
Definition py_iter (v : pyval) : result (list pyval) :=
  match v with
  | PList l => Ok l
  | PDict d => Ok (map PStr (keys d))
  | PStr s => Ok (chars s)
  | PNone | PBool _ | PInt _ | PFloat _ => Raise TypeError
  end.

(** *** Strings

    A character is a code point below 256. *)

(** [str.isspace] on one character. *)
Definition is_space (a : ascii) : bool :=
  let n := N_of_ascii a in
  (((9 <=? n) && (n <=? 13)) || ((28 <=? n) && (n <=? 32))
   || (n =? 133) || (n =? 160))%N.

Fixpoint lstrip (s : string) : string :=
  match s with
  | EmptyString => EmptyString
  | String a rest => if is_space a then lstrip rest else s
  end.

Fixpoint rstrip (s : string) : string :=
  match s with
  | EmptyString => EmptyString
  | String a rest =>
      match rstrip rest with
      | EmptyString => if is_space a then EmptyString else String a EmptyString
      | r => String a r
      end
  end.

(** [s.strip()] *)
Definition strip (s : string) : string := rstrip (lstrip s).

Definition lower_char (a : ascii) : ascii :=
  let n := N_of_ascii a in
  if (((65 <=? n) && (n <=? 90))
      || ((192 <=? n) && (n <=? 222) && negb (n =? 215)))%N
  then ascii_of_N (n + 32) else a.

(** [s.lower()] *)
Fixpoint lower (s : string) : string :=
  match s with
  | EmptyString => EmptyString
  | String a rest => String (lower_char a) (lower rest)
  end.

(** [s.startswith(p)] *)
Definition startswith (s p : string) : bool := String.prefix p s.

Fixpoint all_space (s : string) : bool :=
  match s with
  | EmptyString => true
  | String a rest => is_space a && all_space rest
  end.

(** The decimal text of an integer. *)
Definition str_of_int (n : Z) : string := NilZero.string_of_int (Z.to_int n).

(** [sys.get_int_max_str_digits()], as the interpreter starts: the longest
    run of decimal digits that is turned into an integer or written for
    one. *)
Definition max_str_digits : Z := 4300.

(** The number of decimal digits of an integer, its sign apart. *)
Definition digit_count (n : Z) : Z :=
  Z.of_nat (String.length (str_of_int (Z.abs n))).

(** [str(n)], and [f"{n}"], for an integer: its decimal text, refused
    beyond [max_str_digits] digits. *)
Definition format_int (n : Z) : result string :=
  if (max_str_digits <? digit_count n)%Z
  then Raise (ValueError ("Exceeds the limit (4300 digits) for integer string conversion; "
                          ++ "use sys.set_int_max_str_digits() to increase the limit"))
  else Ok (str_of_int n).

(** *** [repr] of a text *)

Definition double_quote : ascii := ascii_of_N 34.

Definition hex_digit (n : N) : ascii :=
  if (n <? 10)%N then ascii_of_N (48 + n) else ascii_of_N (87 + n).

(** A character that [repr] writes as it is. *)
Definition is_printable (a : ascii) : bool :=
  let n := N_of_ascii a in
  (((32 <=? n) && (n <=? 126)) || ((161 <=? n) && negb (n =? 173)))%N.

Definition repr_char (quote a : ascii) : string :=
  let n := N_of_ascii a in
  if Ascii.eqb a quote || Ascii.eqb a "\" then String "\" (String a EmptyString)
  else if (n =? 9)%N then "\t"
  else if (n =? 10)%N then "\n"
  else if (n =? 13)%N then "\r"
  else if is_printable a then String a EmptyString
  else String "\" (String "x" (String (hex_digit (n / 16))
                                 (String (hex_digit (n mod 16)) EmptyString))).

Fixpoint contains (a : ascii) (s : string) : bool :=
  match s with
  | EmptyString => false
  | String c rest => Ascii.eqb c a || contains a rest
  end.

Fixpoint repr_body (quote : ascii) (s : string) : string :=
  match s with
  | EmptyString => EmptyString
  | String a rest => repr_char quote a ++ repr_body quote rest
  end.

(** [repr(s)]: between single quotes, or between double quotes when [s]
    has a single quote and no double quote. *)
Definition repr (s : string) : string :=
  let quote := if contains "'" s && negb (contains double_quote s)
               then double_quote else "'"%char in
  String quote (repr_body quote s ++ String quote EmptyString).

Fixpoint take (n : nat) (s : string) : string :=
  match n, s with
  | S k, String a rest => String a (take k rest)
  | _, _ => EmptyString
  end.

(** *** [int] of a text *)

Definition is_digit (a : ascii) : bool :=
  let n := N_of_ascii a in ((48 <=? n) && (n <=? 57))%N.

Definition digit_val (a : ascii) : Z := Z.of_N (N_of_ascii a) - 48.

(** The blanks [int()] skips around a literal: tab to carriage return and
    the space, and U+0085 and U+00A0 (a text that is not ASCII is first
    rewritten with its Unicode blanks as spaces).  The separators U+001C to
    U+001F, which [str.strip] removes, are not skipped. *)
Definition is_int_space (a : ascii) : bool :=
  let n := N_of_ascii a in
  (((9 <=? n) && (n <=? 13)) || (n =? 32) || (n =? 133) || (n =? 160))%N.

Fixpoint skip_int_space (s : string) : string :=
  match s with
  | EmptyString => EmptyString
  | String a rest => if is_int_space a then skip_int_space rest else s
  end.

(** What the scan of the digits of a literal finds: two underscores in a
    row or one at the end, or else the value read, the number of digits
    read and the text left. *)
Inductive scanned : Type :=
| Malformed
| Digits (value count : Z) (rest : string).

(** The scan goes on as long as it meets decimal digits and underscores;
    [acc] and [count] are the value and the number of digits read so far,
    and [underscore] tells whether the previous character was one. *)
Fixpoint scan_digits (s : string) (acc count : Z) (underscore : bool) : scanned :=
  match s with
  | EmptyString => if underscore then Malformed else Digits acc count EmptyString
  | String a rest =>
      if is_digit a
      then scan_digits rest (10 * acc + digit_val a)%Z (count + 1)%Z false
      else if (N_of_ascii a =? 95)%N
      then if underscore then Malformed else scan_digits rest acc count true
      else if underscore then Malformed else Digits acc count s
  end.

(** The [ValueError] of a text that is no integer literal; the text is
    shown by the first 200 characters of its [repr]. *)
Definition invalid_literal (s : string) : exn :=
  ValueError ("invalid literal for int() with base 10: " ++ take 200 (repr s)).

Definition too_many_digits (count : Z) : exn :=
  ValueError ("Exceeds the limit (4300 digits) for integer string conversion: value has "
              ++ str_of_int count
              ++ " digits; use sys.set_int_max_str_digits() to increase the limit").

(** The sign in front of a literal and the text after it. *)
Definition split_sign (t : string) : Z * string :=
  match t with
  | String a rest =>
      if Ascii.eqb a "-" then ((-1)%Z, rest)
      else if Ascii.eqb a "+" then (1%Z, rest)
      else (1%Z, t)
  | EmptyString => (1%Z, t)
  end.

(** [int(s)] for a text, in base 10: blanks, a sign, digits with single
    underscores between them, blanks. *)
Definition int_of_str (s : string) : result Z :=
  let (sign, literal) := split_sign (skip_int_space s) in
  if startswith literal "_" then Raise (invalid_literal s)
  else
    match scan_digits literal 0 0 false with
    | Malformed => Raise (invalid_literal s)
    | Digits value count rest =>
        if (max_str_digits <? count)%Z then Raise (too_many_digits count)
        else if (count =? 0)%Z then Raise (invalid_literal s)
        else match skip_int_space rest with
             | EmptyString => Ok (sign * value)%Z
             | _ => Raise (invalid_literal s)
             end
    end.

(** [int(v)] *)
Definition py_int (v : pyval) : result Z :=
  match v with
  | PInt z => Ok z
  | PBool b => Ok (if b then 1 else 0)%Z
  | PFloat q => Ok (Z.quot (Qnum q) (Zpos (Qden q)))
  | PStr s => int_of_str s
  | PNone | PList _ | PDict _ => Raise TypeError
  end.

End Py.

Import Py.

Declare Scope py_scope.
Delimit Scope py_scope with py.
Notation "x <- m ;; k" := (bind m (fun x => k))
  (at level 100, m at next level, right associativity) : py_scope.
Notation "m ;;; k" := (bind m (fun _ => k))
  (at level 100, right associativity) : py_scope.
Notation "x <~ r ;; k" := (rbind r (fun x => k))
  (at level 100, r at next level, right associativity) : py_scope.
Local Open Scope py_scope.

(* ================================================================== *)
(** ** pages/live_matches.py *)
(* ================================================================== *)

Module Normalizer.

(** What [get_match_scorecard] / [get_live_matches] hand back: a
    [CricbuzzAPIError] with its message, or the decoded JSON body. *)
Inductive api_response : Type :=
| ApiError (msg : string)
| ApiData (data : pyval).

Inductive heading : Type := Batting | Bowling.

(** The Streamlit calls of the page, in the order they are made.  Texts that
    are fixed in the source are kept by their constructor. *)
Inductive ui_event : Type :=
| StTitle
| StError (msg : string)
| StWarning (msg : string)
| StInfo (msg : string)
| StRawJson (data : pyval)                        (* the debug expander: st.json(data) *)
| StSubheader (i : nat) (bat_team_name : pyval)   (* "Inning {i} - {bat_team_name}" *)
| StWrite (h : heading)
| StDataframe (rows : list dict)
| StMarkdownRule
| StSelectbox (options : list string).

Definition UI (A : Type) : Type := M (list ui_event) A.

Definition emit (e : ui_event) : UI unit := fun tr => (Ok tt, (tr ++ [e])%list).

Definition no_response_msg : string :=
  "No response received from the Cricbuzz API for this match.".

Definition newline : string := String (ascii_of_nat 10) EmptyString.

Definition no_scorecard_msg : string :=
  "No detailed scorecard is available for this match (no innings data found)."
  ++ newline ++ newline
  ++ "Below is the raw API response to inspect the structure.".

(** Lines 46-51: the innings collection under its alternative names. *)
Definition find_innings (data : dict) : pyval :=
  py_or (py_or (py_or (get data "scorecard") (get data "scoreCard"))
               (get data "innings"))
        (get data "scoreCards").

(** Lines 63-64: a dict of innings becomes the list of its values. *)
Definition dict_to_list (innings_list : pyval) : pyval :=
  match innings_list with
  | PDict d => PList (values d)
  | v => v
  end.

(** Lines 68-74. *)
Definition bat_team_name (innings : dict) : pyval :=
  py_or (py_or (py_or (py_or (get innings "batteamname")
                             (get innings "batTeamName"))
                      (get innings "batTeamShortName"))
               (get innings "batTeam"))
        (PStr "").

(** Lines 82-88. *)
Definition batsmen_source (innings : dict) : list pyval :=
  match get innings "batsman" with
  | PList l => l
  | _ => match get innings "batsmenData" with
         | PDict d => values d
         | _ => []
         end
  end.

(** Lines 92-100: one row of the batting table. *)
Definition batting_row (batsman : pyval) : result dict :=
  b <~ as_dict batsman ;;
  Ok [ ("Name", py_or (get b "name") (get_default b "batName" (PStr "")));
       ("Runs", py_or (get b "runs") (get_default b "r" (PInt 0)));
       ("Balls", py_or (get b "balls") (get_default b "b" (PInt 0)));
       ("4s", py_or (get b "fours") (get_default b "4s" (PInt 0)));
       ("6s", py_or (get b "sixes") (get_default b "6s" (PInt 0)));
       ("SR", py_or (get b "strkrate") (get_default b "sr" (PInt 0)));
       ("Out", py_or (get b "outdec") (get_default b "howOut" (PStr ""))) ].

Definition batsmen_list (innings : dict) : result (list dict) :=
  rmap batting_row (batsmen_source innings).

(** Lines 113-119. *)
Definition bowlers_source (innings : dict) : list pyval :=
  match get innings "bowler" with
  | PList l => l
  | _ => match get innings "bowlersData" with
         | PDict d => values d
         | _ => []
         end
  end.

(** Lines 123-130: one row of the bowling table. *)
Definition bowling_row (bowler : pyval) : result dict :=
  b <~ as_dict bowler ;;
  Ok [ ("Name", py_or (get b "name") (get_default b "bowlName" (PStr "")));
       ("Overs", py_or (get b "overs") (get_default b "ov" (PInt 0)));
       ("Runs", py_or (get b "runs") (get_default b "r" (PInt 0)));
       ("Wickets", py_or (get b "wickets") (get_default b "w" (PInt 0)));
       ("Maidens", py_or (get b "maidens") (get_default b "m" (PInt 0)));
       ("Economy", py_or (get b "economy") (get_default b "econ" (PInt 0))) ].

Definition bowlers_list (innings : dict) : result (list dict) :=
  rmap bowling_row (bowlers_source innings).

Definition show_table (h : heading) (rows : list dict) (none_msg : string)
  : UI unit :=
  match rows with
  | [] => emit (StInfo none_msg)
  | _ :: _ => emit (StWrite h) ;;; emit (StDataframe rows)
  end.

(** The body of the loop of lines 66-139 for innings number [i]. *)
Definition show_innings (i : nat) (innings : pyval) : UI unit :=
  inn <- lift (as_dict innings) ;;
  emit (StSubheader i (bat_team_name inn)) ;;;
  batsmen <- lift (batsmen_list inn) ;;
  show_table Batting batsmen "No batting details found for this innings." ;;;
  bowlers <- lift (bowlers_list inn) ;;
  show_table Bowling bowlers "No bowling details found for this innings." ;;;
  emit StMarkdownRule.

Fixpoint show_all_innings (i : nat) (innings_list : list pyval) : UI unit :=
  match innings_list with
  | [] => ret tt
  | innings :: rest => show_innings i innings ;;; show_all_innings (S i) rest
  end.

(** [show_innings_scorecard], given what [get_match_scorecard(match_id)]
    answered. *)
Definition show_innings_scorecard (resp : api_response) : UI unit :=
  match resp with
  | ApiError msg => emit (StError msg)
  | ApiData data =>
      if negb (truthy data) then emit (StWarning no_response_msg)
      else
        d <- lift (as_dict data) ;;
        let innings_list := find_innings d in
        if negb (truthy innings_list)
        then emit (StWarning no_scorecard_msg) ;;; emit (StRawJson data)
        else
          items <- lift (py_iter (dict_to_list innings_list)) ;;
          show_all_innings 1 items
  end.

(** The innings collection [show_innings_scorecard] goes on with: [None] is
    the "no innings data found" exit. *)
Definition innings_collection (data : dict) : option pyval :=
  let innings_list := find_innings data in
  if truthy innings_list then Some (dict_to_list innings_list) else None.

(** The specification's wording of the search: the keys are tried in order
    and the first one that is present with a non-empty (truthy) value
    wins. *)
Definition innings_keys : list string :=
  ["scorecard"; "scoreCard"; "innings"; "scoreCards"].

Fixpoint first_present_nonempty (ks : list string) (data : dict) : option pyval :=
  match ks with
  | [] => None
  | k :: rest =>
      match lookup k data with
      | Some v => if truthy v then Some v else first_present_nonempty rest data
      | None => first_present_nonempty rest data
      end
  end.

(** A document exposes the innings under the key [k] only: none of the
    other alternative names is present. *)
Definition exposes_only (k : string) (data : dict) (v : pyval) : Prop :=
  lookup k data = Some v /\
  forall k', In k' innings_keys -> k' <> k -> lookup k' data = None.

Section LiveMatches.

(** Python's own [str(v)] (what an f-string puts for [{v}]) and
    [str.upper] are not defined by the repository. *)
Variable py_str : pyval -> string.
Variable upper : string -> string.

Fixpoint rfold {A B} (f : A -> B -> result A) (l : list B) (acc : A) : result A :=
  match l with
  | [] => Ok acc
  | x :: xs => a <~ f acc x ;; rfold f xs a
  end.

(** [v.upper()]: only a string has the method. *)
Definition call_upper (v : pyval) : result string :=
  match v with
  | PStr s => Ok (upper s)
  | _ => Raise AttributeError
  end.

(** Lines 166-174: one entry of [seriesMatches]. *)
Definition add_series (match_type : string) (series_options : dict)
           (series : pyval) : result dict :=
  s <~ as_dict series ;;
  wrapper <~ as_dict (get_default s "seriesAdWrapper" (PDict [])) ;;
  let matches := get wrapper "matches" in
  if negb (truthy matches) then Ok series_options
  else
    let series_name := get_default wrapper "seriesName" (PStr "Unnamed Series") in
    let key := py_str series_name ++ " (" ++ match_type ++ ")" in
    Ok (dict_set key matches series_options).

(** Lines 164-174: one entry of [typeMatches]. *)
Definition add_type_match (series_options : dict) (type_match : pyval)
  : result dict :=
  tm <~ as_dict type_match ;;
  match_type <~ call_upper (get_default tm "matchType" (PStr "UNKNOWN")) ;;
  series_matches <~ py_iter (get_default tm "seriesMatches" (PList [])) ;;
  rfold (add_series match_type) series_matches series_options.

(** Lines 162-174: the grouping of the live matches by series. *)
Definition series_options (data : dict) : result dict :=
  type_matches <~ py_iter (get_default data "typeMatches" (PList [])) ;;
  rfold add_type_match type_matches [].

(** [show_live_matches] up to the series selector (lines 145-183), given
    what [get_live_matches()] answered; the rendering of the selected
    series that follows is not part of this model. *)
Definition show_live_matches (resp : api_response) : UI unit :=
  emit StTitle ;;;
  match resp with
  | ApiError msg => emit (StError msg)
  | ApiData data =>
      if negb (truthy data) then emit (StWarning "No live matches right now.")
      else
        d <- lift (as_dict data) ;;
        options <- lift (series_options d) ;;
        match options with
        | [] => emit (StWarning "No active series found.")
        | _ :: _ => emit (StSelectbox (keys options))
        end
  end.

End LiveMatches.

End Normalizer.

(* ================================================================== *)
(** ** utils/db_connection.py *)
(* ================================================================== *)

Module Gateway.

(** A value of a result row or a bound parameter: NULL, a number or a
    text.  ([None], as the [database] of a connection, is [CNull].) *)
Inductive cell : Type :=
| CNull
| CInt (z : Z)
| CStr (s : string).

Definition row : Type := list cell.

(** A pandas DataFrame as far as the gateway is concerned. *)
Record dataframe : Type := { columns : list string; rows : list row }.

Record conn_args : Type :=
  { host : string; user : string; password : string; database : cell }.

(** The calls that reach the server.  A connection is told apart by the
    database it was opened on; making and closing a cursor is local to the
    driver and leaves no call. *)
Inductive db_call : Type :=
| Connect (args : conn_args)
| Execute (db : cell) (sql : string) (params : list cell)
| ReadSql (db : cell) (sql : string)
| Close (db : cell).

(** The MySQL server behind the driver: a state and its answer to each
    call, an error message ([inl]) or a result.  [execute] answers with the
    rows a cursor then yields and its [rowcount]. *)
Record engine : Type :=
  { server : Type;
    connect : server -> conn_args -> server * option string;
    execute : server -> cell -> string -> list cell
              -> server * (string + (list row * Z));
    read_sql : server -> cell -> string -> server * (string + dataframe) }.

Section Driver.

Variable E : engine.

(** The server and the calls made to it so far. *)
Record world : Type := { srv : server E; log : list db_call }.

Definition DB (A : Type) : Type := M world A.

(** [create_connection(host, user, passwd, database)] *)
Definition create_connection (h u p : string) (db : cell) : DB unit :=
  fun w =>
    let args := {| host := h; user := u; password := p; database := db |} in
    let (s, err) := connect E (srv w) args in
    let w' := {| srv := s; log := (log w ++ [Connect args])%list |} in
    match err with
    | None => (Ok tt, w')
    | Some msg => (Raise (MySQLError msg), w')
    end.

(** [cur.execute(sql, params)] on a cursor of the connection to [db],
    with the rows it yields and its [rowcount]. *)
Definition cursor_execute (db : cell) (sql : string) (params : list cell)
  : DB (list row * Z) :=
  fun w =>
    let (s, r) := execute E (srv w) db sql params in
    let w' := {| srv := s; log := (log w ++ [Execute db sql params])%list |} in
    match r with
    | inr res => (Ok res, w')
    | inl msg => (Raise (MySQLError msg), w')
    end.

(** [pd.read_sql(sql, conn)] *)
Definition pd_read_sql (db : cell) (sql : string) : DB dataframe :=
  fun w =>
    let (s, r) := read_sql E (srv w) db sql in
    let w' := {| srv := s; log := (log w ++ [ReadSql db sql])%list |} in
    match r with
    | inr df => (Ok df, w')
    | inl msg => (Raise (PandasDatabaseError msg), w')
    end.

(** [conn.close()] *)
Definition close (db : cell) : DB unit :=
  fun w => (Ok tt, {| srv := srv w; log := (log w ++ [Close db])%list |}).

(** [try: m  except Error: handler] *)
Definition except_Error {A} (m : DB A) (handler : DB A) : DB A :=
  fun w =>
    match m w with
    | (Raise (MySQLError _), w') => handler w'
    | r => r
    end.

(** *** Schema discovery *)

Definition excluded : list string :=
  ["information_schema"; "performance_schema"; "mysql"; "sys"].

(** [db_name in excluded] *)
Definition in_excluded (db_name : cell) : bool :=
  match db_name with
  | CStr s => existsb (String.eqb s) excluded
  | _ => false
  end.

Definition cell_eqb (a b : cell) : bool :=
  match a, b with
  | CNull, CNull => true
  | CInt x, CInt y => (x =? y)%Z
  | CStr x, CStr y => (x =? y)%string
  | _, _ => false
  end.

Fixpoint cell_lookup {V} (k : cell) (d : list (cell * V)) : option V :=
  match d with
  | [] => None
  | (k', v) :: rest => if cell_eqb k' k then Some v else cell_lookup k rest
  end.

(** [d[k] = v] for a dict keyed by names read from the server. *)
Fixpoint cell_set {V} (k : cell) (v : V) (d : list (cell * V)) : list (cell * V) :=
  match d with
  | [] => [(k, v)]
  | (k', v') :: rest =>
      if cell_eqb k' k then (k', v) :: rest else (k', v') :: cell_set k v rest
  end.

(** [r[i]] on a row tuple. *)
Definition index (r : row) (i : nat) : result cell :=
  match nth_error r i with
  | Some c => Ok c
  | None => Raise IndexError
  end.

(** A column descriptor: the dict with keys name, type, nullable, key,
    default, extra. *)
Definition column : Type := list (string * cell).

(** What [full_schema] holds for one database. *)
Record db_info : Type :=
  { tables : list (cell * list column);
    views : list (cell * column);
    functions : list (cell * column);
    procedures : list (cell * column) }.

Definition col_sql : string := "
                    SELECT COLUMN_NAME, DATA_TYPE, IS_NULLABLE, COLUMN_KEY,
                           COLUMN_DEFAULT, EXTRA
                    FROM INFORMATION_SCHEMA.COLUMNS
                    WHERE TABLE_SCHEMA = %s AND TABLE_NAME = %s
                    ORDER BY ORDINAL_POSITION
                ".

(** Lines 74-81. *)
Definition column_descriptor (c : row) : result column :=
  c0 <~ index c 0 ;;
  c1 <~ index c 1 ;;
  c2 <~ index c 2 ;;
  c3 <~ index c 3 ;;
  c4 <~ index c 4 ;;
  c5 <~ index c 5 ;;
  Ok [ ("name", c0); ("type", c1); ("nullable", c2);
       ("key", c3); ("default", c4); ("extra", c5) ].

(** Lines 61-83: the columns of each base table. *)
Fixpoint read_tables (db_name : cell) (table_rows : list row)
         (acc : list (cell * list column)) : DB (list (cell * list column)) :=
  match table_rows with
  | [] => ret acc
  | table_row :: rest =>
      table_name <- lift (index table_row 0) ;;
      r <- cursor_execute db_name col_sql [db_name; table_name] ;;
      cols <- lift (rmap column_descriptor (fst r)) ;;
      read_tables db_name rest (cell_set table_name cols acc)
  end.

(** Lines 86-88: the views, by name only. *)
Fixpoint read_views (view_rows : list row) (acc : list (cell * column))
  : result (list (cell * column)) :=
  match view_rows with
  | [] => Ok acc
  | v :: rest =>
      view_name <~ index v 0 ;;
      read_views rest (cell_set view_name [] acc)
  end.

(** Lines 44-93, the body of the [try]: [None] is the [continue] taken
    for a database without base tables. *)
Definition discover_database (h u p : string) (db_name : cell)
  : DB (option db_info) :=
  create_connection h u p db_name ;;;
  r <- cursor_execute db_name
         "SHOW FULL TABLES WHERE Table_type = 'BASE TABLE'" [] ;;
  match fst r with
  | [] => ret None
  | table_rows =>
      tbls <- read_tables db_name table_rows [] ;;
      v <- cursor_execute db_name
             "SHOW FULL TABLES WHERE Table_type = 'VIEW'" [] ;;
      vws <- lift (read_views (fst v) []) ;;
      close db_name ;;;
      ret (Some {| tables := tbls; views := vws;
                   functions := []; procedures := [] |})
  end.

(** Lines 39-96: the loop over the databases. *)
Fixpoint discover_all (h u p : string) (all_databases : list cell)
         (full_schema : list (cell * db_info)) : DB (list (cell * db_info)) :=
  match all_databases with
  | [] => ret full_schema
  | db_name :: rest =>
      if in_excluded db_name then discover_all h u p rest full_schema
      else
        found <- except_Error (discover_database h u p db_name) (ret None) ;;
        match found with
        | Some info =>
            discover_all h u p rest (cell_set db_name info full_schema)
        | None => discover_all h u p rest full_schema
        end
  end.

Definition get_mysql_schema (h u p : string) : DB (list (cell * db_info)) :=
  create_connection h u p CNull ;;;
  r <- cursor_execute CNull "SHOW DATABASES" [] ;;
  all_databases <- lift (rmap (fun db => index db 0) (fst r)) ;;
  full_schema <- discover_all h u p all_databases [] ;;
  close CNull ;;;
  ret full_schema.

(** *** Reading *)

Definition fetch_table (h u p : string) (db : cell) (table : string)
           (limit : pyval) : DB (dataframe * string) :=
  create_connection h u p db ;;;
  n <- lift (py_int limit) ;;
  literal <- lift (format_int n) ;;
  let sql := "SELECT * FROM `" ++ table ++ "` LIMIT " ++ literal ++ ";" in
  df <- pd_read_sql db sql ;;
  close db ;;;
  ret (df, sql).

Definition run_select (h u p : string) (db : cell) (select_sql : string)
  : DB dataframe :=
  if negb (startswith (lower (strip select_sql)) "select")
  then raise (ValueError "Only SELECT queries are allowed.")
  else
    create_connection h u p db ;;;
    df <- pd_read_sql db select_sql ;;
    close db ;;;
    ret df.

(** *** Writing *)

Definition join (sep : string) (l : list string) : string := String.concat sep l.

(** [data] is the dict of column name to value, in insertion order. *)
Definition insert_row (h u p : string) (db : cell) (table : string)
           (data : list (string * cell)) : DB (Z * string) :=
  let cols := map (fun c => "`" ++ c ++ "`") (map fst data) in
  let placeholders := join ", " (repeat "%s" (List.length cols)) in
  let sql := "INSERT INTO `" ++ table ++ "` (" ++ join ", " cols
             ++ ") VALUES (" ++ placeholders ++ ");" in
  let values := map snd data in
  create_connection h u p db ;;;
  r <- cursor_execute db sql values ;;
  let affected := snd r in
  close db ;;;
  ret (affected, sql).

Definition delete_rows (h u p : string) (db : cell) (table : string)
           (where_clause : string) : DB (Z * string) :=
  let where_ := strip where_clause in
  if where_ =? "" then raise (ValueError "Refusing to DELETE without WHERE clause.")
  else
    let sql := "DELETE FROM `" ++ table ++ "` WHERE " ++ where_ ++ ";" in
    create_connection h u p db ;;;
    r <- cursor_execute db sql [] ;;
    let affected := snd r in
    close db ;;;
    ret (affected, sql).

Definition execute_update (h u p : string) (db : cell) (table : string)
           (set_clause where_clause : string) : DB (Z * string) :=
  let set_part := strip set_clause in
  let where_part := strip where_clause in
  if set_part =? "" then raise (ValueError "SET clause cannot be empty.")
  else if where_part =? ""
  then raise (ValueError "Refusing to UPDATE without WHERE clause.")
  else
    let sql := "UPDATE `" ++ table ++ "` SET " ++ set_part
               ++ " WHERE " ++ where_part ++ ";" in
    create_connection h u p db ;;;
    r <- cursor_execute db sql [] ;;
    let affected := snd r in
    close db ;;;
    ret (affected, sql).

(** *** The insert form of pages/crud_operations.py (lines 200-214) *)

Inductive page_event : Type :=
| PageWarning (msg : string)
| PageCode (sql : string)
| PageSuccessInserted (affected : Z)
| PageError (e : exn).

(** [inputs[name] = None if val.strip() == "" else val], then
    [clean = {k: v for k, v in inputs.items() if v is not None}], for the
    texts typed into the form, one per column that is not auto-increment. *)
Definition clean (typed : list (string * string)) : list (string * cell) :=
  flat_map (fun kv => if strip (snd kv) =? "" then []
                      else [(fst kv, CStr (snd kv))]) typed.

(** What pressing "Insert Row" does. *)
Definition submit_insert (h u p : string) (db : cell) (table : string)
           (typed : list (string * string)) (w : world)
  : list page_event * world :=
  match clean typed with
  | [] => ([PageWarning "No values provided to insert."], w)
  | data =>
      match insert_row h u p db table data w with
      | (Ok (affected, sql), w') => ([PageCode sql; PageSuccessInserted affected], w')
      | (Raise e, w') => ([PageError e], w')
      end
  end.

(** A table name in which no backtick occurs: between two backticks it is
    one quoted identifier. *)
Fixpoint no_backtick (s : string) : bool :=
  match s with
  | EmptyString => true
  | String c rest => negb (Ascii.eqb c "`") && no_backtick rest
  end.

(** The guarantee expected of the server for [SELECT * FROM `t` LIMIT n;]
    on a table name [t] without backtick: the frame it answers with has at
    most [n] rows.  (With a backtick in [t] the text is no longer a LIMIT
    query on the table [t], and nothing is expected.) *)
Definition honours_limit : Prop :=
  forall s db table n s' df,
    no_backtick table = true ->
    read_sql E s db ("SELECT * FROM `" ++ table ++ "` LIMIT " ++ str_of_int n ++ ";")
    = (s', inr df) ->
    (Z.of_nat (List.length (rows df)) <= n)%Z.

End Driver.


Arguments srv {E} w.
Arguments log {E} w.




End Gateway.

(* ================================================================== *)
(** ** A small server and small documents to run the code on *)
(* ================================================================== *)

Module Sample.

Import Gateway.

(** What SHOW DATABASES lists: the four system databases, the cricket
    database and a database that has no table yet. *)
Definition databases : list row :=
  [ [CStr "information_schema"]; [CStr "cricbuzz_db"]; [CStr "mysql"];
    [CStr "scratch"]; [CStr "performance_schema"]; [CStr "sys"] ].

Definition players_columns : list row :=
  [ [CStr "player_id"; CStr "int"; CStr "NO"; CStr "PRI"; CNull; CStr "auto_increment"];
    [CStr "name"; CStr "varchar"; CStr "YES"; CStr ""; CNull; CStr ""] ].

Definition base_tables (db : cell) : list row :=
  match db with
  | CStr "cricbuzz_db" => [ [CStr "players"; CStr "BASE TABLE"] ]
  | CStr "mysql" => [ [CStr "user"; CStr "BASE TABLE"] ]
  | _ => []
  end.

Definition view_rows (db : cell) : list row :=
  match db with
  | CStr "cricbuzz_db" => [ [CStr "top_scorers"; CStr "VIEW"] ]
  | _ => []
  end.

(** The state of the server is the number of rows inserted so far; every
    user may connect to every database. *)
Definition sample_execute (s : nat) (db : cell) (sql : string) (params : list cell)
  : nat * (string + (list row * Z)) :=
  if sql =? "SHOW DATABASES" then (s, inr (databases, 6%Z))
  else if sql =? "SHOW FULL TABLES WHERE Table_type = 'BASE TABLE'"
  then (s, inr (base_tables db, Z.of_nat (List.length (base_tables db))))
  else if sql =? "SHOW FULL TABLES WHERE Table_type = 'VIEW'"
  then (s, inr (view_rows db, Z.of_nat (List.length (view_rows db))))
  else if sql =? col_sql then (s, inr (players_columns, 2%Z))
  else if String.prefix "INSERT INTO `players` (" sql then (S s, inr ([], 1%Z))
  else (s, inl "You have an error in your SQL syntax").

Definition two_players : dataframe :=
  {| columns := ["player_id"; "name"];
     rows := [ [CInt 1; CStr "Kohli"]; [CInt 2; CStr "Root"] ] |}.

(** The table [players] has two rows.  In the third text the [#] starts a
    comment that runs to the end of the line, as it does in MySQL: the
    statement the server executes is [SELECT * FROM `players`]. *)
Definition sample_read_sql (s : nat) (db : cell) (sql : string)
  : nat * (string + dataframe) :=
  if sql =? "SELECT * FROM `players` LIMIT 5;" then (s, inr two_players)
  else if sql =? "select * from players" then (s, inr two_players)
  else if sql =? "SELECT * FROM `players` #` LIMIT 1;" then (s, inr two_players)
  else (s, inl "You have an error in your SQL syntax").

Definition mysql : engine :=
  {| server := nat;
     connect := fun s _ => (s, None);
     execute := sample_execute;
     read_sql := sample_read_sql |}.

Definition w0 : world mysql := Build_world mysql 0 [].

Definition cricbuzz_db : cell := CStr "cricbuzz_db".

Definition root_at (db : cell) : conn_args :=
  {| host := "127.0.0.1"; user := "root"; password := ""; database := db |}.

(** The server after [fetch_table] of five players, and after an insert
    without columns. *)
Definition after_fetch : world mysql :=
  Build_world mysql 0
    [ Connect (root_at cricbuzz_db);
      ReadSql cricbuzz_db "SELECT * FROM `players` LIMIT 5;";
      Close cricbuzz_db ].

Definition after_commented_limit : world mysql :=
  Build_world mysql 0
    [ Connect (root_at cricbuzz_db);
      ReadSql cricbuzz_db "SELECT * FROM `players` #` LIMIT 1;";
      Close cricbuzz_db ].

Definition after_empty_insert : world mysql :=
  Build_world mysql 1
    [ Connect (root_at cricbuzz_db);
      Execute cricbuzz_db "INSERT INTO `players` () VALUES ();" [];
      Close cricbuzz_db ].

(** The catalog expected of schema discovery on this server. *)
Definition cricbuzz_info : db_info :=
  {| tables :=
       [ (CStr "players",
          [ [ ("name", CStr "player_id"); ("type", CStr "int");
              ("nullable", CStr "NO"); ("key", CStr "PRI");
              ("default", CNull); ("extra", CStr "auto_increment") ];
            [ ("name", CStr "name"); ("type", CStr "varchar");
              ("nullable", CStr "YES"); ("key", CStr "");
              ("default", CNull); ("extra", CStr "") ] ]) ];
     views := [ (CStr "top_scorers", []) ];
     functions := [];
     procedures := [] |}.

Definition catalog : list (cell * db_info) := [ (cricbuzz_db, cricbuzz_info) ].

(** Scorecard participants. *)
Definition virat : pyval :=
  PDict [("name", PStr "V Kohli"); ("runs", PInt 82); ("r", PInt 80);
         ("balls", PInt 53)].

Definition duck : dict :=
  [("name", PStr "R Sharma"); ("runs", PInt 0); ("r", PInt 5)].

Definition rohit : pyval :=
  PDict [("name", PStr "R Sharma"); ("runs", PInt 4); ("balls", PInt 7)].

Definition bumrah : pyval :=
  PDict [("name", PStr "J Bumrah"); ("overs", PInt 4); ("wickets", PInt 3)].

(** One innings with its participants keyed by player id, and the same
    innings with them in plain lists. *)
Definition innings_by_id : dict :=
  [("batTeamName", PStr "IND");
   ("batsmenData", PDict [("bat_1", rohit); ("bat_2", virat)]);
   ("bowlersData", PDict [("bowl_1", bumrah)])].

Definition innings_by_list : dict :=
  [("batTeamName", PStr "IND");
   ("batsman", PList [rohit; virat]);
   ("bowler", PList [bumrah])].

End Sample.

(* ================================================================== *)
(** ** utils/db_connection.py: the helpers over the catalog *)
(* ================================================================== *)

Module Catalog.

Import Gateway.

Section Sorting.

Variable A : Type.
Variable leb : A -> A -> bool.

Fixpoint insert_sorted (x : A) (l : list A) : list A :=
  match l with
  | [] => [x]
  | y :: rest => if leb x y then x :: l else y :: insert_sorted x rest
  end.

Definition sort (l : list A) : list A := fold_right insert_sorted [] l.

End Sorting.

Arguments insert_sorted {A} leb x l.
Arguments sort {A} leb l.

Fixpoint all_strings (l : list cell) : option (list string) :=
  match l with
  | [] => Some []
  | CStr s :: rest => option_map (cons s) (all_strings rest)
  | _ :: _ => None
  end.

Fixpoint all_ints (l : list cell) : option (list Z) :=
  match l with
  | [] => Some []
  | CInt z :: rest => option_map (cons z) (all_ints rest)
  | _ :: _ => None
  end.

(** [sorted(l)] for names read from the server.  Texts are ordered by code
    point and numbers by value; every other comparison ([None] with
    anything, a number with a text) is a [TypeError], and a sort of two or
    more items cannot end without making one. *)
Definition py_sorted (l : list cell) : result (list cell) :=
  match l with
  | [] | [_] => Ok l
  | _ =>
      match all_strings l with
      | Some ss => Ok (map CStr (sort String.leb ss))
      | None =>
          match all_ints l with
          | Some zs => Ok (map CInt (sort Z.leb zs))
          | None => Raise TypeError
          end
      end
  end.

Section Helpers.

Variable E : engine.

Definition list_databases (h u p : string) : DB E (list cell) :=
  schema <- get_mysql_schema E h u p ;;
  lift (py_sorted (map fst schema)).

(** [schema.get(database, {})] then [db.get("tables", {})]: a database
    that is not in the catalog has no table. *)
Definition tables_of (schema : list (cell * db_info)) (database : cell)
  : list (cell * list column) :=
  match cell_lookup database schema with
  | Some info => tables info
  | None => []
  end.

Definition list_tables (h u p : string) (database : cell) : DB E (list cell) :=
  schema <- get_mysql_schema E h u p ;;
  lift (py_sorted (map fst (tables_of schema database))).

Definition get_table_columns (h u p : string) (database table : cell)
  : DB E (list column) :=
  schema <- get_mysql_schema E h u p ;;
  ret (match cell_lookup table (tables_of schema database) with
       | Some cols => cols
       | None => []
       end).

End Helpers.

End Catalog.

(* ================================================================== *)
(** ** pages/live_matches.py: one match of the selected series *)
(* ================================================================== *)

Module LivePage.

Import Normalizer.

(** The Streamlit calls made for one match, with the values put into
    their texts. *)
Inductive match_event : Type :=
| StMatchSubheader (team1 team2 : pyval)        (* "{team1} vs {team2}" *)
| StMatchLine (matchDesc matchFormat : pyval)   (* "**Match:** {matchDesc} ({matchFormat})" *)
| StStatusLine (status : pyval)                 (* "**Status:** {status}" *)
| StStateLine (stateTitle : pyval)              (* "**State:** {stateTitle}" *)
| StVenueLine (ground city : pyval)             (* "**Venue:** {ground}, {city}" *)
| StStartLine (text : string)                   (* "**Start:** {format_time(startDate)}" *)
| StEndLine (text : string)                     (* "**End:** {format_time(endDate)}" *)
| StScore (team_short runs wickets overs : pyval).
                                                (* st.success: "{short}: {runs}/{wickets} in {overs} overs" *)

Definition say (e : match_event) : M (list match_event) unit :=
  fun tr => (Ok tt, (tr ++ [e])%list).

Section Time.

(** [datetime.fromtimestamp(n / 1000).strftime("%d %b %Y, %I:%M %p")],
    given the quotient [n / 1000] of the integer [n], in the time zone of
    the machine; [None] when the division, the conversion or the
    formatting raises (a quotient beyond the floats, a date out of
    range). *)
Variable local_time_text : Q -> option string.

(** Lines 18-27. *)
Definition format_time (epoch_ms : pyval) : string :=
  if negb (truthy epoch_ms) then "N/A"
  else
    match py_int epoch_ms with
    | Ok n =>
        match local_time_text (Qmake n 1000) with
        | Some text => text
        | None => "N/A"
        end
    | Raise _ => "N/A"
    end.

(** Lines 225-231 (and 234-240): the first-innings score of one team. *)
Definition show_score (score : dict) (team_key : string) (team_short : pyval)
  : M (list match_event) unit :=
  team_score <- lift (as_dict (get_default score team_key (PDict []))) ;;
  let inn := get_default team_score "inngs1" (PDict []) in
  if truthy inn
  then
    i <- lift (as_dict inn) ;;
    say (StScore team_short (get_default i "runs" (PInt 0))
                 (get_default i "wickets" (PInt 0))
                 (get_default i "overs" (PInt 0)))
  else ret tt.

(** Lines 191-240: the header, venue, dates and scores of one match.  The
    "View Scorecard" button and the rule that end the loop body are not
    part of this model. *)
Definition show_match (match_ : pyval) : M (list match_event) unit :=
  m <- lift (as_dict match_) ;;
  info <- lift (as_dict (get_default m "matchInfo" (PDict []))) ;;
  let score := get_default m "matchScore" (PDict []) in
  team1_info <- lift (as_dict (get_default info "team1" (PDict []))) ;;
  team2_info <- lift (as_dict (get_default info "team2" (PDict []))) ;;
  let team1 := get_default team1_info "teamName" (PStr "Team 1") in
  let team2 := get_default team2_info "teamName" (PStr "Team 2") in
  let team1_short := get_default team1_info "teamSName" (PStr "") in
  let team2_short := get_default team2_info "teamSName" (PStr "") in
  say (StMatchSubheader team1 team2) ;;;
  say (StMatchLine (get_default info "matchDesc" (PStr ""))
                   (get_default info "matchFormat" (PStr ""))) ;;;
  say (StStatusLine (get_default info "status" (PStr ""))) ;;;
  say (StStateLine (get_default info "stateTitle" (PStr ""))) ;;;
  venue <- lift (as_dict (get_default info "venueInfo" (PDict []))) ;;
  say (StVenueLine (get_default venue "ground" (PStr ""))
                   (get_default venue "city" (PStr ""))) ;;;
  say (StStartLine (format_time (get info "startDate"))) ;;;
  say (StEndLine (format_time (get info "endDate"))) ;;;
  sc <- lift (as_dict score) ;;
  show_score sc "team1Score" team1_short ;;;
  show_score sc "team2Score" team2_short.

End Time.

(** A section of a document is usable when it is absent or a mapping. *)
Definition absent_or_dict (d : dict) (k : string) : bool :=
  match lookup k d with
  | None => true
  | Some (PDict _) => true
  | Some _ => false
  end.

End LivePage.

(* ================================================================== *)
(** ** utils/api_client.py *)
(* ================================================================== *)

Module ApiClient.

Definition BASE_URL : string := "https://cricbuzz-cricket.p.rapidapi.com".

(** What a call of the client ends with: the decoded body, or a
    [CricbuzzAPIError] with its message. *)
Inductive api_result : Type :=
| Fetched (data : pyval)
| CricbuzzAPIError (msg : string).

Record http_request : Type :=
  { url : string;
    headers : list (string * string);
    params : option (list (string * string));
    timeout : Z }.

(** A response: its status (a number of three digits: [http.client] takes
    no other status line, so that its text is its decimal text), what
    [resp.json()] gives (the decoded body, or the text of the decoding
    error) and [resp.text]. *)
Record http_response : Type :=
  { status_code : Z; json : string + pyval; text : string }.

(** What [requests.get] ends with: a [RequestException] or a response. *)
Inductive http_outcome : Type :=
| RequestException (msg : string)
| Responded (resp : http_response).

(** The network behind [requests]: a state and its answer to a GET. *)
Record network : Type :=
  { net : Type;
    http_get : net -> http_request -> net * http_outcome }.

Definition missing_key_msg : string :=
  "RAPIDAPI_KEY not found in environment variables. "
  ++ "Create a .env file in your project root with:" ++ Normalizer.newline
  ++ "RAPIDAPI_KEY=<your_key>" ++ Normalizer.newline
  ++ "RAPIDAPI_HOST=cricbuzz-cricket.p.rapidapi.com".

Section Client.

(** The process environment, the network, and Python's [str(v)]. *)
Variable environ : list (string * string).
Variable N : network.
Variable py_str : pyval -> string.

(** The network and the requests sent so far. *)
Record internet : Type := { state : net N; sent : list http_request }.

(** Lines 20-41; [inl] is the message of the error raised. *)
Definition _get_headers : string + list (string * string) :=
  let api_key := lookup "RAPIDAPI_KEY" environ in
  let api_host :=
    match lookup "RAPIDAPI_HOST" environ with
    | Some host => host
    | None => "cricbuzz-cricket.p.rapidapi.com"
    end in
  match api_key with
  | None => inl missing_key_msg
  | Some key =>
      if key =? "" then inl missing_key_msg
      else inr [("x-rapidapi-key", key); ("x-rapidapi-host", api_host)]
  end.

(** Lines 44-81. *)
Definition _request (path : string) (params_ : option (list (string * string)))
           (timeout_ : Z) (w : internet) : api_result * internet :=
  let url_ := BASE_URL ++ path in
  match _get_headers with
  | inl msg => (CricbuzzAPIError msg, w)
  | inr headers_ =>
      let req := {| url := url_; headers := headers_;
                    params := params_; timeout := timeout_ |} in
      let (s, outcome) := http_get N (state w) req in
      let w' := {| state := s; sent := (sent w ++ [req])%list |} in
      match outcome with
      | RequestException e =>
          (CricbuzzAPIError ("Network error calling Cricbuzz API: " ++ e), w')
      | Responded resp =>
          if negb (status_code resp =? 200)%Z
          then
            let body := match json resp with
                        | inr b => py_str b
                        | inl _ => text resp
                        end in
            (CricbuzzAPIError ("Cricbuzz API returned HTTP "
                               ++ str_of_int (status_code resp) ++ " for " ++ path
                               ++ ". Response: " ++ body), w')
          else
            match json resp with
            | inr b => (Fetched b, w')
            | inl e =>
                (CricbuzzAPIError ("Failed to parse JSON from Cricbuzz API: " ++ e),
                 w')
            end
      end
  end.

Definition get_international_series : internet -> api_result * internet :=
  _request "/series/v1/international" None 10.

Definition get_live_matches : internet -> api_result * internet :=
  _request "/matches/v1/live" None 10.

Definition get_match_scorecard (match_id : pyval)
  : internet -> api_result * internet :=
  _request ("/mcenter/v1/" ++ py_str match_id) None 10.

Definition get_series_matches (series_id : pyval)
  : internet -> api_result * internet :=
  _request ("/series/v1/" ++ py_str series_id) None 10.

(** What the pages make of a call: [except CricbuzzAPIError as e] takes
    [str(e)], the message. *)
Definition response_of (r : api_result) : Normalizer.api_response :=
  match r with
  | Fetched data => Normalizer.ApiData data
  | CricbuzzAPIError msg => Normalizer.ApiError msg
  end.

(** [show_innings_scorecard(match_id)] of pages/live_matches.py with its
    call of the client (lines 33-139). *)
Definition scorecard_page (match_id : pyval) (w : internet)
  : (result unit * list Normalizer.ui_event) * internet :=
  let (r, w') := get_match_scorecard match_id w in
  (Normalizer.show_innings_scorecard (response_of r) [], w').

End Client.

Arguments state {N} i.
Arguments sent {N} i.

End ApiClient.

(* ================================================================== *)
(** ** pages/crud_operations.py: the forms over the gateway *)
(* ================================================================== *)

Module CrudPage.

Import Gateway.

(** The Streamlit calls of the forms. *)
Inductive crud_event : Type :=
| CrudWarning (msg : string)
| CrudError (msg : string)
| CrudFailed (what : string) (e : exn)   (* st.error(f"{what} failed: {e}") *)
| CrudCode (sql : string)
| CrudSuccess (verb : string) (affected : Z) (* st.success(f"{verb} {affected} row(s).") *)
| CrudDataframe (df : dataframe).

Definition priority_tables : list string :=
  [ "players"; "recent_matches"; "series_matches"; "top_odi_runs"; "venues";
    "players_stats"; "combined_matches"; "batting_data"; "bowling_data";
    "batters_batting_data"; "bowlers_bowling_venue_data" ].

(** [x in l] *)
Definition mem (x : string) (l : list string) : bool := existsb (String.eqb x) l.

(** [l.index(x)]: the first position of [x]; [None] is the [ValueError]. *)
Fixpoint py_index (x : string) (l : list string) : option nat :=
  match l with
  | [] => None
  | y :: rest => if y =? x then Some 0 else option_map S (py_index x rest)
  end.

(** Line 89, for a non-empty [dbs]; [dbs[0]] is guarded by line 85. *)
Definition default_db (dbs : list string) : string :=
  if mem "cricbuzz_db" dbs then "cricbuzz_db" else hd "" dbs.

(** Line 115: [next((t for t in priority_tables if t in tables), tables[0])];
    [tables[0]] is guarded by line 97. *)
Definition default_table (tables : list string) : string :=
  match find (fun t => mem t tables) priority_tables with
  | Some t => t
  | None => hd "" tables
  end.

Section Forms.

Variable E : engine.
Variables h u p : string.
Variable db : cell.
Variable table : string.

(** Lines 157-168: the "Run SELECT" button. *)
Definition submit_select (custom_sql : string) (w : world E)
  : list crud_event * world E :=
  let sql := strip custom_sql in
  if sql =? "" then ([CrudWarning "Please enter a SELECT query."], w)
  else if negb (startswith (lower sql) "select")
  then ([CrudError "Only SELECT queries are allowed in this section."], w)
  else
    match run_select E h u p db sql w with
    | (Ok df, w') => ([CrudDataframe df], w')
    | (Raise e, w') => ([CrudFailed "Query" e], w')
    end.

(** Lines 228-238: the "Delete" button. *)
Definition submit_delete (where_clause : string) (w : world E)
  : list crud_event * world E :=
  let where_ := strip where_clause in
  if where_ =? "" then ([CrudWarning "WHERE clause cannot be empty for delete."], w)
  else
    match delete_rows E h u p db table where_ w with
    | (Ok (affected, sql), w') => ([CrudCode sql; CrudSuccess "Deleted" affected], w')
    | (Raise e, w') => ([CrudFailed "Delete" e], w')
    end.

(** Lines 256-270: the "Run Update" button. *)
Definition submit_update (set_part where_part : string) (w : world E)
  : list crud_event * world E :=
  let set_sql := strip set_part in
  let where_sql := strip where_part in
  if (set_sql =? "") || (where_sql =? "")
  then ([CrudWarning "Both SET and WHERE clauses are required."], w)
  else
    match execute_update E h u p db table set_sql where_sql w with
    | (Ok (affected, sql), w') => ([CrudCode sql; CrudSuccess "Updated" affected], w')
    | (Raise e, w') => ([CrudFailed "Update" e], w')
    end.

End Forms.

End CrudPage.

(* ================================================================== *)
(** ** A second server, a network and a live document to run the code on *)
(* ================================================================== *)

Module Fixtures.

Import Gateway.

(** A server with two user databases, one database that refuses every
    connection and one system database.  Its state counts the statements
    that changed rows. *)
Definition office_databases : list row :=
  [ [CStr "vault"]; [CStr "cricbuzz_db"]; [CStr "archive"]; [CStr "sys"] ].

Definition office_tables (db : cell) : list row :=
  match db with
  | CStr "cricbuzz_db" => [ [CStr "venues"; CStr "BASE TABLE"];
                            [CStr "players"; CStr "BASE TABLE"] ]
  | CStr "archive" => [ [CStr "old_matches"; CStr "BASE TABLE"] ]
  | _ => []
  end.

Definition office_connect (s : nat) (a : conn_args) : nat * option string :=
  match database a with
  | CStr "vault" => (s, Some "Access denied for user to database 'vault'")
  | _ => (s, None)
  end.

Definition office_execute (s : nat) (db : cell) (sql : string) (ps : list cell)
  : nat * (string + (list row * Z)) :=
  if sql =? "SHOW DATABASES" then (s, inr (office_databases, 4%Z))
  else if sql =? "SHOW FULL TABLES WHERE Table_type = 'BASE TABLE'"
  then (s, inr (office_tables db, Z.of_nat (List.length (office_tables db))))
  else if String.prefix "DELETE FROM `players` WHERE " sql then (S s, inr ([], 1%Z))
  else if String.prefix "UPDATE `players` SET " sql then (S s, inr ([], 2%Z))
  else Sample.sample_execute s db sql ps.

Definition office : engine :=
  {| server := nat;
     connect := office_connect;
     execute := office_execute;
     read_sql := Sample.sample_read_sql |}.

Definition office0 : world office := Build_world office 0 [].

(** [str(v)] on the values the fixtures format. *)
Definition show (v : pyval) : string :=
  match v with
  | PStr s => s
  | PInt z => str_of_int z
  | _ => "?"
  end.

(** A match that has not begun: no score yet. *)
Definition upcoming_match : dict :=
  [ ("matchInfo",
     PDict [ ("matchId", PInt 100);
             ("matchDesc", PStr "1st ODI");
             ("matchFormat", PStr "ODI");
             ("status", PStr "Match starts at 09:00 GMT");
             ("startDate", PStr "1741800600000");
             ("team1", PDict [("teamName", PStr "India"); ("teamSName", PStr "IND")]);
             ("team2", PDict [("teamName", PStr "England"); ("teamSName", PStr "ENG")]);
             ("venueInfo", PDict [("ground", PStr "Eden Gardens");
                                  ("city", PStr "Kolkata")]) ]) ].

Definition live_document : dict :=
  [ ("typeMatches",
     PList [ PDict [ ("matchType", PStr "International");
                     ("seriesMatches",
                      PList [ PDict [ ("seriesAdWrapper",
                                       PDict [ ("seriesName", PStr "England tour of India");
                                               ("matches", PList [PDict upcoming_match]) ]) ];
                              PDict [ ("adDetail", PDict [("name", PStr "native")]) ];
                              PDict [ ("seriesAdWrapper",
                                       PDict [ ("seriesName", PStr "England tour of India");
                                               ("matches", PList [PDict upcoming_match;
                                                                  PDict upcoming_match]) ]) ] ]) ] ]) ].

Definition clock (t : Q) : option string := Some "12 Mar 2025, 05:30 PM".

Definition scorecard_document : pyval :=
  PDict [ ("scorecard", PList [PDict Sample.innings_by_list; PDict Sample.innings_by_id]) ].

(** A network on which the match centre answers for match 100, the live
    feed is over quota and everything else times out. *)
Definition rapidapi_get (s : nat) (req : ApiClient.http_request)
  : nat * ApiClient.http_outcome :=
  if ApiClient.url req =? "https://cricbuzz-cricket.p.rapidapi.com/mcenter/v1/100"
  then (S s, ApiClient.Responded
               {| ApiClient.status_code := 200;
                  ApiClient.json := inr scorecard_document;
                  ApiClient.text := "" |})
  else if ApiClient.url req =? "https://cricbuzz-cricket.p.rapidapi.com/matches/v1/live"
  then (S s, ApiClient.Responded
               {| ApiClient.status_code := 429;
                  ApiClient.json := inr (PDict [("message", PStr "Too many requests")]);
                  ApiClient.text := "" |})
  else (s, ApiClient.RequestException "Read timed out.").

Definition rapidapi : ApiClient.network :=
  {| ApiClient.net := nat; ApiClient.http_get := rapidapi_get |}.

Definition online : ApiClient.internet rapidapi :=
  ApiClient.Build_internet rapidapi 0 [].

Definition with_key : list (string * string) := [("RAPIDAPI_KEY", "s3cr3t")].

End Fixtures.

(* ================================================================== *)
(** ** Strings: stripping and blank texts *)
(* ================================================================== *)

Section StringFacts.

Lemma lstrip_all_space (s : string) : all_space s = true -> lstrip s = "".
Proof.
  induction s as [|a s IH]; simpl; intros H; [reflexivity|].
  apply andb_true_iff in H as [Ha Hs]. rewrite Ha. auto.
Qed.

Lemma rstrip_empty_all_space (s : string) : rstrip s = "" -> all_space s = true.
Proof.
  induction s as [|a s IH]; simpl; intros H; [reflexivity|].
  destruct (rstrip s) eqn:R; [|discriminate].
  destruct (is_space a); [simpl; auto | discriminate].
Qed.

Lemma lstrip_all_space_inv (s : string) :
  all_space (lstrip s) = true -> all_space s = true.
Proof.
  induction s as [|a s IH]; simpl; intros H; [reflexivity|].
  destruct (is_space a) eqn:Ha; simpl in *; auto.
  rewrite Ha in H. discriminate.
Qed.

(** [s.strip()] is empty exactly when [s] is empty or whitespace only. *)
Lemma strip_empty_iff (s : string) : strip s = "" <-> all_space s = true.
Proof.
  unfold strip. split; intros H.
  - apply lstrip_all_space_inv, rstrip_empty_all_space, H.
  - rewrite (lstrip_all_space s H). reflexivity.
Qed.

Lemma strip_eqb_blank (s : string) : all_space s = true -> (strip s =? "") = true.
Proof. intros H. apply String.eqb_eq, strip_empty_iff, H. Qed.

Lemma strip_eqb_not_blank (s : string) : all_space s = false -> (strip s =? "") = false.
Proof.
  intros H. apply String.eqb_neq. intros E.
  apply strip_empty_iff in E. congruence.
Qed.

End StringFacts.

(* ================================================================== *)
(** ** Texts read as integers *)
(* ================================================================== *)

Module IntFacts.

(** The characters an integer literal can hold: the blanks [int()] skips,
    the decimal digits, the two signs and the underscore. *)
Definition literal_char (a : ascii) : bool :=
  is_int_space a || is_digit a
  || Ascii.eqb a "+" || Ascii.eqb a "-" || Ascii.eqb a "_".

Lemma contains_cons (a c : ascii) (s : string) :
  contains a (String c s) = true -> c = a \/ contains a s = true.
Proof.
  simpl. destruct (Ascii.eqb_spec c a) as [->|N]; [left; reflexivity|].
  intros H. right. exact H.
Qed.

Lemma skip_int_space_chars (s : string) (a : ascii) :
  contains a s = true ->
  is_int_space a = true \/ contains a (skip_int_space s) = true.
Proof.
  induction s as [|c rest IH]; [discriminate|]. intros H. cbn [skip_int_space].
  destruct (is_int_space c) eqn:S; [|right; exact H].
  apply contains_cons in H as [->|H]; [left; exact S | exact (IH H)].
Qed.

Lemma skip_int_space_empty (s : string) (a : ascii) :
  skip_int_space s = "" -> contains a s = true -> is_int_space a = true.
Proof.
  intros E H. destruct (skip_int_space_chars s a H) as [S|C]; [exact S|].
  rewrite E in C. discriminate C.
Qed.

Lemma split_sign_chars (t : string) (a : ascii) :
  contains a t = true ->
  Ascii.eqb a "+" = true \/ Ascii.eqb a "-" = true
  \/ contains a (snd (split_sign t)) = true.
Proof.
  destruct t as [|c rest]; [discriminate|]. intros H. cbn [split_sign].
  destruct (Ascii.eqb_spec c "-") as [->|Nm].
  - apply contains_cons in H as [<-|H]; [right; left; reflexivity|].
    right; right. exact H.
  - destruct (Ascii.eqb_spec c "+") as [->|Np].
    + apply contains_cons in H as [<-|H]; [left; reflexivity|].
      right; right. exact H.
    + right; right. exact H.
Qed.

Lemma scan_digits_chars (s : string) :
  forall acc count underscore value count' rest a,
    scan_digits s acc count underscore = Digits value count' rest ->
    contains a s = true ->
    is_digit a = true \/ Ascii.eqb a "_" = true \/ contains a rest = true.
Proof.
  induction s as [|c s IH]; intros acc count underscore value count' rest a H C;
    [discriminate C|].
  cbn [scan_digits] in H.
  destruct (is_digit c) eqn:D.
  - apply contains_cons in C as [<-|C]; [left; exact D|]. exact (IH _ _ _ _ _ _ _ H C).
  - destruct (N_of_ascii c =? 95)%N eqn:U.
    + destruct underscore; [discriminate H|].
      apply contains_cons in C as [<-|C]; [|exact (IH _ _ _ _ _ _ _ H C)].
      right; left. apply N.eqb_eq in U.
      rewrite <- (ascii_N_embedding c), U. reflexivity.
    + destruct underscore; [discriminate H|]. injection H as _ _ <-.
      right; right. exact C.
Qed.

(** A text that [int] takes holds nothing but blanks, signs, digits and
    underscores. *)
Lemma int_of_str_chars (s : string) (n : Z) (a : ascii) :
  int_of_str s = Ok n -> contains a s = true -> literal_char a = true.
Proof.
  unfold int_of_str, literal_char. intros H C.
  destruct (skip_int_space_chars s a C) as [S|C1]; [rewrite S; reflexivity|].
  destruct (split_sign_chars _ a C1) as [P|[P|C2]];
    [rewrite P, ?orb_true_r; reflexivity | rewrite P, ?orb_true_r; reflexivity|].
  destruct (split_sign (skip_int_space s)) as [sign literal]. cbn [snd] in C2.
  destruct (startswith literal "_"); [discriminate H|].
  destruct (scan_digits literal 0 0 false) as [|value count rest] eqn:Sc;
    [discriminate H|].
  destruct (max_str_digits <? count)%Z; [discriminate H|].
  destruct (count =? 0)%Z; [discriminate H|].
  destruct (skip_int_space rest) eqn:R; [|discriminate H].
  destruct (scan_digits_chars _ _ _ _ _ _ _ a Sc C2) as [D|[U|C3]].
  - rewrite D, ?orb_true_r. reflexivity.
  - rewrite U, ?orb_true_r. reflexivity.
  - rewrite (skip_int_space_empty _ _ R C3). reflexivity.
Qed.

(** Any other character makes [int] raise its [ValueError]. *)
Lemma int_of_str_rejects (s : string) (a : ascii) :
  contains a s = true -> literal_char a = false ->
  exists msg, int_of_str s = Raise (ValueError msg).
Proof.
  intros C L. destruct (int_of_str s) as [n|e] eqn:I.
  - rewrite (int_of_str_chars _ _ _ I C) in L. discriminate L.
  - unfold int_of_str in I.
    destruct (split_sign (skip_int_space s)) as [sign literal].
    destruct (startswith literal "_"); [injection I as <-; eexists; reflexivity|].
    destruct (scan_digits literal 0 0 false) as [|value count rest];
      [injection I as <-; eexists; reflexivity|].
    destruct (max_str_digits <? count)%Z; [injection I as <-; eexists; reflexivity|].
    destruct (count =? 0)%Z; [injection I as <-; eexists; reflexivity|].
    destruct (skip_int_space rest); [discriminate I|].
    injection I as <-. eexists. reflexivity.
Qed.

End IntFacts.


(* ================================================================== *)
(** ** The response normalizer *)
(* ================================================================== *)

Module NormalizerFacts.

Import Normalizer.

Lemma truthy_None_or (v : pyval) : py_or PNone v = v.
Proof. reflexivity. Qed.

Lemma py_or_None_r (v : pyval) :
  py_or v PNone = if truthy v then v else PNone.
Proof. reflexivity. Qed.

Lemma bind_lift_Ok {S A B} (a : A) (k : A -> M S B) (s : S) :
  bind (lift (Ok a)) k s = k a s.
Proof. reflexivity. Qed.

Lemma innings_collection_nonempty (data : dict) (c : pyval) :
  innings_collection data = Some c -> data <> [].
Proof. intros H ->. discriminate H. Qed.

(** After its two guards, [show_innings_scorecard] depends on the document
    through [innings_collection] only. *)
Lemma show_innings_scorecard_found (data : dict) (c : pyval) (tr : list ui_event) :
  innings_collection data = Some c ->
  show_innings_scorecard (ApiData (PDict data)) tr
  = (items <- lift (py_iter c) ;; show_all_innings 1 items) tr.
Proof.
  intros H. pose proof (innings_collection_nonempty _ _ H) as Hne.
  unfold innings_collection in H.
  destruct data as [|kv rest]; [contradiction|].
  unfold show_innings_scorecard. cbn [truthy negb as_dict].
  rewrite bind_lift_Ok.
  destruct (truthy (find_innings (kv :: rest))); [|discriminate].
  injection H as <-. reflexivity.
Qed.

Lemma py_or_truthy (a b : pyval) : truthy a = true -> py_or a b = a.
Proof. unfold py_or. intros ->. reflexivity. Qed.

Lemma py_or_falsy (a b : pyval) : truthy a = false -> py_or a b = b.
Proof. unfold py_or. intros ->. reflexivity. Qed.

(** One step of the search, told through [get]: an absent key reads as
    [None], which is falsy. *)
Lemma first_present_nonempty_cons (k : string) (ks : list string) (data : dict) :
  first_present_nonempty (k :: ks) data
  = if truthy (get data k) then Some (get data k)
    else first_present_nonempty ks data.
Proof.
  unfold get, get_default. cbn [first_present_nonempty].
  destruct (lookup k data) as [v|]; reflexivity.
Qed.

Lemma find_innings_spec (data : dict) :
  innings_collection data
  = option_map dict_to_list (first_present_nonempty innings_keys data).
Proof.
  unfold innings_collection, find_innings, innings_keys.
  rewrite !first_present_nonempty_cons. cbn [first_present_nonempty].
  destruct (truthy (get data "scorecard")) eqn:T1.
  { rewrite !(py_or_truthy _ _ T1), T1. reflexivity. }
  rewrite (py_or_falsy _ _ T1).
  destruct (truthy (get data "scoreCard")) eqn:T2.
  { rewrite !(py_or_truthy _ _ T2), T2. reflexivity. }
  rewrite (py_or_falsy _ _ T2).
  destruct (truthy (get data "innings")) eqn:T3.
  { rewrite !(py_or_truthy _ _ T3), T3. reflexivity. }
  rewrite (py_or_falsy _ _ T3).
  destruct (truthy (get data "scoreCards")) eqn:T4; reflexivity.
Qed.

Lemma exposes_only_camel (data : dict) (v : pyval) :
  exposes_only "scoreCard" data v ->
  find_innings data = if truthy v then v else PNone.
Proof.
  intros [Hk Hn]. unfold find_innings, get, get_default.
  rewrite Hk.
  rewrite (Hn "scorecard"), (Hn "innings"), (Hn "scoreCards");
    try (unfold innings_keys; simpl; tauto); try discriminate.
  rewrite truthy_None_or, !py_or_None_r. destruct (truthy v) eqn:T.
  - rewrite T. reflexivity.
  - reflexivity.
Qed.

Lemma exposes_only_plain (data : dict) (v : pyval) :
  exposes_only "scorecard" data v ->
  find_innings data = if truthy v then v else PNone.
Proof.
  intros [Hk Hn]. unfold find_innings, get, get_default.
  rewrite Hk.
  rewrite (Hn "scoreCard"), (Hn "innings"), (Hn "scoreCards");
    try (unfold innings_keys; simpl; tauto); try discriminate.
  rewrite !py_or_None_r. destruct (truthy v) eqn:T.
  - rewrite !T. reflexivity.
  - reflexivity.
Qed.

(** C1 (as amended): for a batting record holding both [runs] and [r] with
    different values, the Runs field of the row is the value of [runs] when
    that value is truthy, and the value of [r] when [runs] holds a falsy
    value (0, an empty text, null): the search stops at the first alias
    whose value is truthy, not at the first alias that is present. *)
Theorem batting_runs_alias_priority (b : dict) (v_runs v_r : pyval) :
  lookup "runs" b = Some v_runs ->
  lookup "r" b = Some v_r ->
  v_runs <> v_r ->
  exists row,
    batting_row (PDict b) = Ok row /\
    lookup "Runs" row = Some (if truthy v_runs then v_runs else v_r).
Proof.
  intros Hruns Hr _. eexists. split; [reflexivity|].
  cbn. unfold get, get_default, py_or. rewrite Hruns, Hr. reflexivity.
Qed.

Lemma batting_runs_alias_priority_witness :
  exists row,
    batting_row Sample.virat = Ok row /\
    lookup "Runs" row = Some (if truthy (PInt 82) then PInt 82 else PInt 80).
Proof.
  apply (batting_runs_alias_priority _ (PInt 82) (PInt 80));
    [reflexivity | reflexivity | discriminate].
Defined.

(** C1 (as stated) fails: a batsman out for nought with [runs = 0] and
    [r = 5] gets Runs = 5, the value of [r]. *)
Lemma batting_runs_falsy_counterexample :
  exists (b : dict) (v_runs v_r : pyval) (row : dict),
    lookup "runs" b = Some v_runs /\
    lookup "r" b = Some v_r /\
    v_runs <> v_r /\
    batting_row (PDict b) = Ok row /\
    lookup "Runs" row = Some v_r /\
    lookup "Runs" row <> Some v_runs.
Proof.
  exists Sample.duck, (PInt 0), (PInt 5). eexists.
  repeat split; try reflexivity; discriminate.
Qed.

(** C4: the innings collection is the value of the first of [scorecard],
    [scoreCard], [innings], [scoreCards] that is present with a non-empty
    (truthy) value; a mapping is replaced by the list of its values in
    iteration order; the page goes on with that collection alone; and a
    document exposing the innings under [scoreCard] only is read as the one
    exposing the same value under [scorecard] only. *)
Theorem innings_collection_priority :
  (forall data : dict,
      innings_collection data
      = option_map dict_to_list (first_present_nonempty innings_keys data)) /\
  (forall (data : dict) (d : dict),
      first_present_nonempty innings_keys data = Some (PDict d) ->
      innings_collection data = Some (PList (values d))) /\
  (forall (data : dict) (c : pyval) (tr : list ui_event),
      innings_collection data = Some c ->
      show_innings_scorecard (ApiData (PDict data)) tr
      = (items <- lift (py_iter c) ;; show_all_innings 1 items) tr) /\
  (forall (camel plain : dict) (v : pyval),
      exposes_only "scoreCard" camel v ->
      exposes_only "scorecard" plain v ->
      innings_collection camel = innings_collection plain /\
      (truthy v = true ->
       forall tr, show_innings_scorecard (ApiData (PDict camel)) tr
                  = show_innings_scorecard (ApiData (PDict plain)) tr)).
Proof.
  split; [exact find_innings_spec|].
  split; [intros data d H; rewrite find_innings_spec, H; reflexivity|].
  split; [intros data c tr H; apply show_innings_scorecard_found, H|].
  intros camel plain v Hc Hp.
  assert (E : innings_collection camel = innings_collection plain).
  { unfold innings_collection.
    rewrite (exposes_only_camel _ _ Hc), (exposes_only_plain _ _ Hp). reflexivity. }
  split; [exact E|].
  intros T tr.
  assert (F : innings_collection camel = Some (dict_to_list v)).
  { unfold innings_collection. rewrite (exposes_only_camel _ _ Hc), T, T. reflexivity. }
  rewrite (show_innings_scorecard_found camel _ tr F).
  rewrite E in F.
  rewrite (show_innings_scorecard_found plain _ tr F). reflexivity.
Qed.

(** C4 on a document: the same two innings under [scoreCard] and under
    [scorecard] give the same page. *)
Lemma innings_collection_priority_witness :
  innings_collection [("scoreCard", PDict [("1", PDict Sample.innings_by_id)])]
  = innings_collection [("scorecard", PDict [("1", PDict Sample.innings_by_id)])]
  /\ (truthy (PDict [("1", PDict Sample.innings_by_id)]) = true ->
      forall tr,
        show_innings_scorecard
          (ApiData (PDict [("scoreCard", PDict [("1", PDict Sample.innings_by_id)])])) tr
        = show_innings_scorecard
            (ApiData (PDict [("scorecard", PDict [("1", PDict Sample.innings_by_id)])])) tr).
Proof.
  apply (proj2 (proj2 (proj2 innings_collection_priority))).
  - split; [reflexivity|].
    intros k' [<-|[<-|[<-|[<-|[]]]]] Hk; try reflexivity; contradiction.
  - split; [reflexivity|].
    intros k' [<-|[<-|[<-|[<-|[]]]]] Hk; try reflexivity; contradiction.
Defined.

(** C7: an innings whose batsmen come as a mapping of player id to stats
    under [batsmenData] and an innings whose [batsman] list holds the
    mapping's values in the same order give the same batting rows, and
    likewise for [bowlersData] against [bowler]. *)
Theorem participants_mapping_as_list :
  (forall (by_id by_list : dict) (players : dict),
      is_list (get by_id "batsman") = false ->
      get by_id "batsmenData" = PDict players ->
      get by_list "batsman" = PList (values players) ->
      batsmen_list by_id = batsmen_list by_list) /\
  (forall (by_id by_list : dict) (players : dict),
      is_list (get by_id "bowler") = false ->
      get by_id "bowlersData" = PDict players ->
      get by_list "bowler" = PList (values players) ->
      bowlers_list by_id = bowlers_list by_list).
Proof.
  split; intros by_id by_list players Hnl Hmap Hlist.
  - unfold batsmen_list, batsmen_source. rewrite Hmap, Hlist.
    destruct (get by_id "batsman"); try reflexivity; discriminate Hnl.
  - unfold bowlers_list, bowlers_source. rewrite Hmap, Hlist.
    destruct (get by_id "bowler"); try reflexivity; discriminate Hnl.
Qed.

Lemma participants_mapping_as_list_witness :
  batsmen_list Sample.innings_by_id = batsmen_list Sample.innings_by_list /\
  bowlers_list Sample.innings_by_id = bowlers_list Sample.innings_by_list.
Proof.
  split.
  - apply (proj1 participants_mapping_as_list Sample.innings_by_id Sample.innings_by_list
             [("bat_1", Sample.rohit); ("bat_2", Sample.virat)]); reflexivity.
  - apply (proj2 participants_mapping_as_list Sample.innings_by_id Sample.innings_by_list
             [("bowl_1", Sample.bumrah)]); reflexivity.
Defined.

(** C10: a live-matches document without [typeMatches] gives the empty
    grouping, nothing is raised, and the page shows a warning (not an
    error). *)
Theorem live_matches_without_grouping_key
        (py_str : pyval -> string) (upper : string -> string) (data : dict) :
  lookup "typeMatches" data = None ->
  series_options py_str upper data = Ok [] /\
  forall tr,
    show_live_matches py_str upper (ApiData (PDict data)) tr
    = (Ok tt,
       (tr ++ [StTitle;
               StWarning (match data with
                          | [] => "No live matches right now."
                          | _ :: _ => "No active series found."
                          end)])%list).
Proof.
  intros H.
  assert (E : series_options py_str upper data = Ok []).
  { unfold series_options, get_default. rewrite H. reflexivity. }
  split; [exact E|]. intros tr.
  unfold show_live_matches, bind, emit. cbn [truthy negb].
  destruct data as [|kv rest]; cbn [negb].
  - rewrite <- app_assoc. reflexivity.
  - cbn [as_dict lift]. unfold lift. rewrite E. rewrite <- app_assoc. reflexivity.
Qed.

Lemma live_matches_without_grouping_key_witness :
  series_options (fun _ => "") (fun s => s)
                 [("appIndex", PDict [("seoTitle", PStr "Live Cricket Score")])]
  = Ok [] /\
  forall tr,
    show_live_matches (fun _ => "") (fun s => s)
      (ApiData (PDict [("appIndex", PDict [("seoTitle", PStr "Live Cricket Score")])])) tr
    = (Ok tt, (tr ++ [StTitle; StWarning "No active series found."])%list).
Proof.
  apply (live_matches_without_grouping_key (fun _ => "") (fun s => s)
           [("appIndex", PDict [("seoTitle", PStr "Live Cricket Score")])]).
  reflexivity.
Defined.

End NormalizerFacts.

(* ================================================================== *)
(** ** The SQL gateway *)
(* ================================================================== *)

Module GatewayFacts.

Import Gateway.

(** Unfolds a gateway operation down to the server's answers and splits on
    each of them. *)
Ltac step_server :=
  match goal with
  | |- context [connect ?E ?s ?a] =>
      let s1 := fresh "s" in let m := fresh "msg" in
      destruct (connect E s a) as [s1 [m|]] eqn:?
  | |- context [execute ?E ?s ?d ?q ?ps] =>
      let s1 := fresh "s" in let m := fresh "msg" in let r := fresh "res" in
      destruct (execute E s d q ps) as [s1 [m|r]] eqn:?
  | |- context [read_sql ?E ?s ?d ?q] =>
      let s1 := fresh "s" in let m := fresh "msg" in let r := fresh "df" in
      destruct (read_sql E s d q) as [s1 [m|r]] eqn:?
  end.

Ltac run_db :=
  unfold create_connection, cursor_execute, pd_read_sql, close,
    bind, ret, raise, lift;
  cbn [srv log fst snd];
  repeat (step_server; cbn [srv log fst snd]).

Lemma app_cons_neq {A} (l rest : list A) (x : A) : (l ++ x :: rest)%list <> l.
Proof.
  intros H. rewrite <- (app_nil_r l) in H at 2.
  apply app_inv_head in H. discriminate.
Qed.

(** The decimal text of an integer reads back as that integer. *)
Lemma str_of_int_decodes (n : Z) :
  option_map Z.of_int (NilZero.int_of_string (str_of_int n)) = Some n.
Proof.
  unfold str_of_int. rewrite NilZero.isi.
  - simpl. now rewrite DecimalZ.of_to.
  - destruct n; simpl; try discriminate.
    intros H. injection H as H. revert H. apply DecimalPos.Unsigned.to_uint_nonnil.
  - destruct n; simpl; try discriminate.
    intros H. injection H as H. revert H. apply DecimalPos.Unsigned.to_uint_nonnil.
Qed.

Lemma str_of_int_inj (n m : Z) : str_of_int n = str_of_int m -> n = m.
Proof.
  intros H. pose proof (str_of_int_decodes n) as Hn.
  rewrite H, str_of_int_decodes in Hn. congruence.
Qed.

Lemma clean_blank (typed : list (string * string)) :
  (forall kv, In kv typed -> all_space (snd kv) = true) -> clean typed = [].
Proof.
  induction typed as [|kv rest IH]; intros H; [reflexivity|].
  unfold clean in *. cbn [flat_map].
  rewrite (strip_eqb_blank _ (H kv (or_introl eq_refl))).
  apply IH. intros kv' Hin. apply H. right. exact Hin.
Qed.

Lemma format_int_Ok (n : Z) (text : string) :
  format_int n = Ok text ->
  (digit_count n <= max_str_digits)%Z /\ text = str_of_int n.
Proof.
  unfold format_int. destruct (Z.ltb_spec max_str_digits (digit_count n)) as [G|G].
  - discriminate.
  - intros H. injection H as <-. split; [exact G | reflexivity].
Qed.

Lemma format_int_small (n : Z) :
  (digit_count n <= max_str_digits)%Z -> format_int n = Ok (str_of_int n).
Proof.
  intros G. unfold format_int.
  destruct (Z.ltb_spec max_str_digits (digit_count n)); [lia | reflexivity].
Qed.

Section Guards.

Variable E : engine.
Variables h u p : string.
Variable db : cell.
Variable table : string.

Let args : conn_args :=
  {| host := h; user := u; password := p; database := db |}.

(** An accepted query goes to the server as it was written. *)
Lemma run_select_accepted (select_sql : string) (w : world E) :
  startswith (lower (strip select_sql)) "select" = true ->
  run_select E h u p db select_sql w
  = (create_connection E h u p db ;;;
     df <- pd_read_sql E db select_sql ;;
     close E db ;;;
     ret df) w.
Proof. intros H. unfold run_select. rewrite H. reflexivity. Qed.

Lemma read_opens_connection (select_sql : string) (w : world E) :
  exists rest,
    log (snd ((create_connection E h u p db ;;;
               df <- pd_read_sql E db select_sql ;;
               close E db ;;;
               ret df) w))
    = (log w ++ Connect args :: rest)%list.
Proof.
  run_db; eexists; rewrite <- ?app_assoc; cbn [app]; reflexivity.
Qed.

(** C3: a WHERE clause that is empty or whitespace only makes
    [delete_rows] and [execute_update] raise a [ValueError] with the
    server and the call log untouched, and so does an empty or whitespace
    only SET clause for [execute_update]. *)
Theorem blank_clause_is_refused (blank : string) (w : world E) :
  all_space blank = true ->
  delete_rows E h u p db table blank w
  = (Raise (ValueError "Refusing to DELETE without WHERE clause."), w)
  /\ (forall set_clause,
         execute_update E h u p db table set_clause blank w
         = (Raise (ValueError (if all_space set_clause
                               then "SET clause cannot be empty."
                               else "Refusing to UPDATE without WHERE clause.")),
            w))
  /\ (forall where_clause,
         execute_update E h u p db table blank where_clause w
         = (Raise (ValueError "SET clause cannot be empty."), w)).
Proof.
  intros B. pose proof (strip_eqb_blank _ B) as S.
  repeat split.
  - unfold delete_rows. rewrite S. reflexivity.
  - intros set_clause. unfold execute_update.
    destruct (all_space set_clause) eqn:NB.
    + rewrite (strip_eqb_blank _ NB). reflexivity.
    + rewrite (strip_eqb_not_blank _ NB), S. reflexivity.
  - intros where_clause. unfold execute_update. rewrite S. reflexivity.
Qed.

(** C6: [run_select] raises its [ValueError], with no call made, exactly
    when the trimmed and lowered text does not start with [select];
    otherwise it connects and hands the text to [pd.read_sql] unchanged.
    [update players set x=1] is refused, [select * from players] is
    accepted, in any letter case. *)
Theorem run_select_read_only_guard (select_sql : string) (w : world E) :
  let accepted := startswith (lower (strip select_sql)) "select" in
  (accepted = false <->
   run_select E h u p db select_sql w
   = (Raise (ValueError "Only SELECT queries are allowed."), w))
  /\ (accepted = true <->
      exists rest,
        log (snd (run_select E h u p db select_sql w))
        = (log w ++ Connect args :: rest)%list)
  /\ (accepted = true ->
      forall s, connect E (srv w) args = (s, None) ->
      exists rest,
        log (snd (run_select E h u p db select_sql w))
        = (log w ++ Connect args :: ReadSql db select_sql :: rest)%list)
  /\ startswith (lower (strip "update players set x=1")) "select" = false
  /\ startswith (lower (strip "select * from players")) "select" = true
  /\ startswith (lower (strip "  SeLeCT * FROM players ")) "select" = true.
Proof.
  intros accepted.
  assert (No : accepted = false ->
               run_select E h u p db select_sql w
               = (Raise (ValueError "Only SELECT queries are allowed."), w)).
  { intros A. unfold run_select. fold accepted. rewrite A. reflexivity. }
  assert (Yes : accepted = true ->
                exists rest,
                  log (snd (run_select E h u p db select_sql w))
                  = (log w ++ Connect args :: rest)%list).
  { intros A. rewrite (run_select_accepted _ _ A). apply read_opens_connection. }
  repeat split.
  - exact No.
  - intros R. destruct accepted eqn:A; [|reflexivity].
    destruct (Yes eq_refl) as [rest L]. rewrite R in L. cbn [snd] in L.
    symmetry in L. apply app_cons_neq in L. contradiction.
  - exact Yes.
  - intros [rest L]. destruct accepted eqn:A; [reflexivity|].
    rewrite (No eq_refl) in L. cbn [snd] in L.
    symmetry in L. apply app_cons_neq in L. contradiction.
  - intros A s C. rewrite (run_select_accepted _ _ A).
    unfold create_connection, bind. cbn [srv log]. fold args. rewrite C.
    run_db; eexists; rewrite <- ?app_assoc; cbn [app]; reflexivity.
Qed.

(** With an empty [data], [insert_row] validates nothing: it builds an
    INSERT without columns and sends it. *)
Lemma insert_row_empty (w : world E) :
  insert_row E h u p db table [] w
  = (create_connection E h u p db ;;;
     r <- cursor_execute E db ("INSERT INTO `" ++ table ++ "` () VALUES ();") [] ;;
     close E db ;;;
     ret (snd r, "INSERT INTO `" ++ table ++ "` () VALUES ();")) w.
Proof. reflexivity. Qed.

(** C2 (as amended): an empty field map is stopped by the insert form of
    the CRUD page, which warns and makes no call when every typed value is
    blank; [insert_row] itself has no such check: given an empty map it
    builds [INSERT INTO `t` () VALUES ();], opens a connection and, once
    connected, executes that text with no parameter. *)
Theorem empty_insert_stopped_by_form
        (typed : list (string * string)) (w : world E) :
  (forall kv, In kv typed -> all_space (snd kv) = true) ->
  submit_insert E h u p db table typed w
  = ([PageWarning "No values provided to insert."], w)
  /\ (exists rest,
        log (snd (insert_row E h u p db table [] w))
        = (log w ++ Connect args :: rest)%list)
  /\ (forall s, connect E (srv w) args = (s, None) ->
      exists rest,
        log (snd (insert_row E h u p db table [] w))
        = (log w ++ Connect args
                 :: Execute db ("INSERT INTO `" ++ table ++ "` () VALUES ();") []
                 :: rest)%list).
Proof.
  intros B. repeat split.
  - unfold submit_insert. rewrite (clean_blank _ B). reflexivity.
  - rewrite insert_row_empty.
    run_db; eexists; rewrite <- ?app_assoc; cbn [app]; reflexivity.
  - intros s C. rewrite insert_row_empty.
    unfold create_connection, bind. cbn [srv log]. fold args. rewrite C.
    run_db; eexists; rewrite <- ?app_assoc; cbn [app]; reflexivity.
Qed.

(** C8 (as amended): when [fetch_table] returns, the text it returns is
    [SELECT * FROM `table` LIMIT n;], the table name put between backticks
    as it is and [n = int(limit)] written as a decimal literal; that same
    text is what was sent to the server and the frame is the server's
    answer to it, so that for a table name without backtick it has at most
    [n] rows on a server that honours LIMIT; and [fetch_table] does return
    whenever the connection opens, [int(limit)] is defined and has no more
    digits than the interpreter writes, and the query succeeds. *)
Theorem fetch_table_sql_text (limit : pyval) (w : world E) :
  (forall df sql w',
      fetch_table E h u p db table limit w = (Ok (df, sql), w') ->
      exists n,
        py_int limit = Ok n
        /\ (digit_count n <= max_str_digits)%Z
        /\ sql = "SELECT * FROM `" ++ table ++ "` LIMIT " ++ str_of_int n ++ ";"
        /\ option_map Z.of_int (NilZero.int_of_string (str_of_int n)) = Some n
        /\ log w' = (log w ++ [Connect args; ReadSql db sql; Close db])%list
        /\ (exists s s', read_sql E s db sql = (s', inr df))
        /\ (honours_limit E -> no_backtick table = true ->
            (Z.of_nat (List.length (rows df)) <= n)%Z))
  /\ (forall n s s' df,
        py_int limit = Ok n ->
        (digit_count n <= max_str_digits)%Z ->
        connect E (srv w) args = (s, None) ->
        read_sql E s db ("SELECT * FROM `" ++ table ++ "` LIMIT " ++ str_of_int n ++ ";")
        = (s', inr df) ->
        fst (fetch_table E h u p db table limit w)
        = Ok (df, "SELECT * FROM `" ++ table ++ "` LIMIT " ++ str_of_int n ++ ";")).
Proof.
  split.
  - intros df sql w'. unfold fetch_table.
    unfold create_connection, bind at 1. cbn [srv log]. fold args.
    destruct (connect E (srv w) args) as [s1 [msg|]] eqn:C; [discriminate|].
    unfold lift at 1, bind at 1.
    destruct (py_int limit) as [n|e] eqn:L; [|discriminate].
    unfold lift at 1, bind at 1.
    destruct (format_int n) as [literal|e] eqn:F; [|discriminate].
    apply format_int_Ok in F as [D ->].
    unfold pd_read_sql, bind at 1. cbn [srv log].
    destruct (read_sql E s1 db _) as [s2 [msg|df']] eqn:R; [discriminate|].
    unfold close, bind, ret. cbn [srv log].
    intros H. injection H as <- <- <-.
    exists n. split; [reflexivity|]. split; [exact D|]. split; [reflexivity|].
    split; [apply str_of_int_decodes|].
    split; [cbn [log]; rewrite <- !app_assoc; reflexivity|].
    split; [exists s1, s2; exact R|].
    intros HL NB. exact (HL _ _ _ _ _ _ NB R).
  - intros n s s' df L D C R. unfold fetch_table.
    unfold create_connection, bind at 1. cbn [srv log]. fold args. rewrite C.
    unfold lift at 1, bind at 1. rewrite L.
    unfold lift at 1, bind at 1. rewrite (format_int_small _ D).
    unfold pd_read_sql, bind at 1. cbn [srv log]. rewrite R.
    reflexivity.
Qed.

End Guards.

(** *** Schema discovery *)

Lemma cell_eqb_eq (a b : cell) : cell_eqb a b = true -> a = b.
Proof.
  destruct a, b; simpl; intros H; try discriminate; try reflexivity.
  - apply Z.eqb_eq in H. congruence.
  - apply String.eqb_eq in H. congruence.
Qed.

Lemma cell_eqb_refl (a : cell) : cell_eqb a a = true.
Proof.
  destruct a; simpl; [reflexivity | apply Z.eqb_refl | apply String.eqb_refl].
Qed.

Lemma cell_set_Forall {V} (P : cell * V -> Prop) (k : cell) (v : V)
      (d : list (cell * V)) :
  Forall P d -> P (k, v) -> Forall P (cell_set k v d).
Proof.
  intros Hd Hk. induction Hd as [|[k' v'] rest Hx Hrest IH]; simpl.
  - constructor; [exact Hk | constructor].
  - destruct (cell_eqb k' k) eqn:Eq.
    + apply cell_eqb_eq in Eq. subst k'. constructor; assumption.
    + constructor; assumption.
Qed.




Lemma cell_lookup_absent {V} (k : cell) (d : list (cell * V)) :
  Forall (fun kv => fst kv <> k) d -> cell_lookup k d = None.
Proof.
  induction 1 as [|[k' v'] rest Hx Hrest IH]; simpl; [reflexivity|].
  destruct (cell_eqb k' k) eqn:Eq; [|exact IH].
  apply cell_eqb_eq in Eq. contradiction.
Qed.

Lemma in_excluded_name (name : string) : In name excluded -> in_excluded (CStr name) = true.
Proof.
  intros H. unfold in_excluded. apply existsb_exists. exists name.
  split; [exact H | apply String.eqb_refl].
Qed.

Lemma bind_Ok_inv {S A B} (m : M S A) (k : A -> M S B) (s s' : S) (b : B) :
  bind m k s = (Ok b, s') ->
  exists a s1, m s = (Ok a, s1) /\ k a s1 = (Ok b, s').
Proof.
  unfold bind. destruct (m s) as [[a|e] s1]; intros H; [|discriminate].
  exists a, s1. split; [reflexivity | exact H].
Qed.

Lemma lift_Ok_inv {S A} (r : result A) (s s' : S) (a : A) :
  lift r s = (Ok a, s') -> r = Ok a /\ s' = s.
Proof. unfold lift. intros H. injection H as -> ->. split; reflexivity. Qed.

Section Discovery.

Variable E : engine.
Variables h u p : string.

Lemma except_Error_Some (m : DB E (option db_info)) (w w' : world E) (info : db_info) :
  except_Error E m (ret None) w = (Ok (Some info), w') ->
  m w = (Ok (Some info), w').
Proof.
  unfold except_Error, ret.
  destruct (m w) as [[a|e] w1]; [auto|].
  destruct e; intros H; discriminate H.
Qed.





Lemma discover_all_Forall (P : cell * db_info -> Prop) :
  (forall db info w w',
      in_excluded db = false ->
      discover_database E h u p db w = (Ok (Some info), w') ->
      P (db, info)) ->
  forall dbs acc w schema w',
    Forall P acc ->
    discover_all E h u p dbs acc w = (Ok schema, w') ->
    Forall P schema.
Proof.
  intros HP. induction dbs as [|db_name rest IH]; intros acc w schema w' Hacc H.
  - simpl in H. injection H as <- _. exact Hacc.
  - cbn [discover_all] in H.
    destruct (in_excluded db_name) eqn:X; [exact (IH _ _ _ _ Hacc H)|].
    apply bind_Ok_inv in H as (found & w1 & D & H).
    destruct found as [info|]; [|exact (IH _ _ _ _ Hacc H)].
    apply except_Error_Some in D.
    apply (IH _ _ _ _ (cell_set_Forall _ _ _ _ Hacc (HP _ _ _ _ X D)) H).
Qed.



Lemma get_mysql_schema_Forall (P : cell * db_info -> Prop) :
  (forall db info w w',
      in_excluded db = false ->
      discover_database E h u p db w = (Ok (Some info), w') ->
      P (db, info)) ->
  forall w schema w',
    get_mysql_schema E h u p w = (Ok schema, w') ->
    Forall P schema.
Proof.
  intros HP w schema w' H. unfold get_mysql_schema in H.
  apply bind_Ok_inv in H as ([] & w1 & _ & H).
  apply bind_Ok_inv in H as (r & w2 & _ & H).
  apply bind_Ok_inv in H as (dbs & w3 & _ & H).
  apply bind_Ok_inv in H as (full & w4 & D & H).
  apply bind_Ok_inv in H as ([] & w5 & _ & H).
  injection H as <- _.
  exact (discover_all_Forall P HP _ _ _ _ _ (Forall_nil _) D).
Qed.

(** C9: whatever the server lists and lets the user open, the catalog
    returned by schema discovery has no entry for [information_schema],
    [performance_schema], [mysql] or [sys]. *)
Theorem system_databases_excluded
        (w : world E) (schema : list (cell * db_info)) (w' : world E) :
  get_mysql_schema E h u p w = (Ok schema, w') ->
  (forall db info, In (db, info) schema -> in_excluded db = false)
  /\ (forall name, In name excluded -> cell_lookup (CStr name) schema = None).
Proof.
  intros H.
  pose proof (get_mysql_schema_Forall
                (fun kv => in_excluded (fst kv) = false)
                (fun db info w1 w2 X _ => X) _ _ _ H) as F.
  split.
  - intros db info Hin. rewrite Forall_forall in F. exact (F _ Hin).
  - intros name Hname. apply cell_lookup_absent.
    eapply Forall_impl; [|exact F].
    intros [k info] K Heq. cbn [fst] in K, Heq. subst k.
    rewrite (in_excluded_name _ Hname) in K. discriminate.
Qed.

Lemma cell_eqb_neq (a b : cell) : cell_eqb a b = false -> a <> b.
Proof. intros H ->. rewrite cell_eqb_refl in H. discriminate H. Qed.









End Discovery.

(** *** The sample server *)

Lemma sample_discovery :
  fst (get_mysql_schema Sample.mysql "127.0.0.1" "root" "" Sample.w0)
  = Ok Sample.catalog.
Proof. vm_compute. reflexivity. Qed.

Lemma sample_limit_text (table : string) (n : Z) :
  "SELECT * FROM `" ++ table ++ "` LIMIT " ++ str_of_int n ++ ";"
  = "SELECT * FROM `players` LIMIT 5;" ->
  n = 5%Z.
Proof.
  pose (tl := fun s => match s with String _ t => t | EmptyString => EmptyString end).
  intros H. cbn [append] in H.
  do 15 (apply (f_equal tl) in H; cbn [append tl] in H).
  repeat (destruct table as [|? table]; cbn [append] in H;
          [try discriminate H | injection H as -> H || discriminate H]).
  do 8 (apply (f_equal tl) in H; cbn [append tl] in H).
  apply str_of_int_inj.
  destruct (str_of_int n) as [|c [|c' rest]] eqn:D; cbn [append] in H;
    try discriminate H.
  - injection H as ->. reflexivity.
  - injection H as _ _ H. destruct rest; discriminate H.
Qed.

Lemma sample_comment_text (table : string) (n : Z) :
  no_backtick table = true ->
  "SELECT * FROM `" ++ table ++ "` LIMIT " ++ str_of_int n ++ ";"
  <> "SELECT * FROM `players` #` LIMIT 1;".
Proof.
  pose (tl := fun s => match s with String _ t => t | EmptyString => EmptyString end).
  intros NB H. cbn [append] in H.
  do 15 (apply (f_equal tl) in H; cbn [append tl] in H).
  repeat (destruct table as [|? table]; cbn [append] in H;
          [try discriminate H | injection H as -> H || discriminate H];
          cbn in NB; try discriminate NB).
Qed.

Lemma sample_honours_limit : honours_limit Sample.mysql.
Proof.
  intros s db table n s' df NB H. cbn [read_sql Sample.mysql] in H.
  unfold Sample.sample_read_sql in H.
  destruct (_ =? "SELECT * FROM `players` LIMIT 5;") eqn:Q.
  - apply String.eqb_eq in Q. apply sample_limit_text in Q. subst n.
    injection H as _ <-. cbn. lia.
  - destruct (_ =? "select * from players") eqn:Q2; [cbn in Q2; discriminate Q2|].
    destruct (_ =? "SELECT * FROM `players` #` LIMIT 1;") eqn:Q3; [|discriminate H].
    apply String.eqb_eq in Q3. apply sample_comment_text in Q3; [contradiction | exact NB].
Qed.

(** C2 (as stated) fails: on the sample server [insert_row] with an empty
    field map raises nothing; it connects, executes
    [INSERT INTO `players` () VALUES ();] and reports one row inserted. *)
Lemma insert_row_empty_counterexample :
  insert_row Sample.mysql "127.0.0.1" "root" "" Sample.cricbuzz_db "players" []
             Sample.w0
  = (Ok (1%Z, "INSERT INTO `players` () VALUES ();"), Sample.after_empty_insert)
  /\ log Sample.after_empty_insert <> log Sample.w0
  /\ srv Sample.after_empty_insert <> srv Sample.w0.
Proof.
  split; [reflexivity|].
  split; intros H; cbv in H; discriminate H.
Qed.

Lemma empty_insert_stopped_by_form_witness :
  submit_insert Sample.mysql "127.0.0.1" "root" "" Sample.cricbuzz_db "players"
                [("name", "   "); ("country", "")] Sample.w0
  = ([PageWarning "No values provided to insert."], Sample.w0)
  /\ (exists rest,
        log (snd (insert_row Sample.mysql "127.0.0.1" "root" "" Sample.cricbuzz_db
                             "players" [] Sample.w0))
        = (log Sample.w0 ++ Connect (Sample.root_at Sample.cricbuzz_db) :: rest)%list)
  /\ (forall s,
        connect Sample.mysql (srv Sample.w0) (Sample.root_at Sample.cricbuzz_db)
        = (s, None) ->
        exists rest,
          log (snd (insert_row Sample.mysql "127.0.0.1" "root" "" Sample.cricbuzz_db
                               "players" [] Sample.w0))
          = (log Sample.w0
               ++ Connect (Sample.root_at Sample.cricbuzz_db)
               :: Execute Sample.cricbuzz_db
                    ("INSERT INTO `" ++ "players" ++ "` () VALUES ();") []
               :: rest)%list).
Proof.
  apply (empty_insert_stopped_by_form Sample.mysql "127.0.0.1" "root" ""
           Sample.cricbuzz_db "players" [("name", "   "); ("country", "")] Sample.w0).
  intros kv [<-|[<-|[]]]; reflexivity.
Defined.

Lemma blank_clause_is_refused_witness :
  delete_rows Sample.mysql "127.0.0.1" "root" "" Sample.cricbuzz_db "players" "  "
              Sample.w0
  = (Raise (ValueError "Refusing to DELETE without WHERE clause."), Sample.w0)
  /\ (forall set_clause,
        execute_update Sample.mysql "127.0.0.1" "root" "" Sample.cricbuzz_db "players"
                       set_clause "  " Sample.w0
        = (Raise (ValueError (if all_space set_clause
                              then "SET clause cannot be empty."
                              else "Refusing to UPDATE without WHERE clause.")),
           Sample.w0))
  /\ (forall where_clause,
        execute_update Sample.mysql "127.0.0.1" "root" "" Sample.cricbuzz_db "players"
                       "  " where_clause Sample.w0
        = (Raise (ValueError "SET clause cannot be empty."), Sample.w0)).
Proof.
  apply (blank_clause_is_refused Sample.mysql "127.0.0.1" "root" ""
           Sample.cricbuzz_db "players" "  " Sample.w0).
  reflexivity.
Defined.

(** On the sample server the UPDATE is refused with no call made, and the
    SELECT is answered. *)
Lemma run_select_read_only_guard_witness :
  run_select Sample.mysql "127.0.0.1" "root" "" Sample.cricbuzz_db
             "update players set x=1" Sample.w0
  = (Raise (ValueError "Only SELECT queries are allowed."), Sample.w0)
  /\ fst (run_select Sample.mysql "127.0.0.1" "root" "" Sample.cricbuzz_db
                     "select * from players" Sample.w0)
     = Ok Sample.two_players.
Proof.
  split; [|reflexivity].
  apply (proj1 (proj1 (run_select_read_only_guard Sample.mysql "127.0.0.1" "root" ""
                         Sample.cricbuzz_db "update players set x=1" Sample.w0))).
  reflexivity.
Defined.

(** At [limit = 5] the text carries the literal 5 and the two rows
    returned are at most five. *)
Lemma fetch_table_sql_text_witness :
  fetch_table Sample.mysql "127.0.0.1" "root" "" Sample.cricbuzz_db "players" (PInt 5)
              Sample.w0
  = (Ok (Sample.two_players, "SELECT * FROM `players` LIMIT 5;"), Sample.after_fetch)
  /\ "SELECT * FROM `players` LIMIT 5;"
     = "SELECT * FROM `" ++ "players" ++ "` LIMIT " ++ str_of_int 5 ++ ";"
  /\ (Z.of_nat (List.length (rows Sample.two_players)) <= 5)%Z.
Proof.
  split; [reflexivity|].
  destruct (proj1 (fetch_table_sql_text Sample.mysql "127.0.0.1" "root" ""
                     Sample.cricbuzz_db "players" (PInt 5) Sample.w0)
              Sample.two_players "SELECT * FROM `players` LIMIT 5;"
              Sample.after_fetch eq_refl)
    as (n & Hn & _ & Hsql & _ & _ & _ & Hrows).
  injection Hn as <-.
  split; [exact Hsql | exact (Hrows sample_honours_limit eq_refl)].
Defined.

(** C8 (as stated) fails on a table name that holds a backtick: the name
    is not escaped, its backtick ends the quoted identifier and the [#]
    after it comments the LIMIT out, so that on a server that honours LIMIT
    [fetch_table] with [limit = 1] returns both rows of [players]. *)
Lemma fetch_table_backtick_counterexample :
  honours_limit Sample.mysql
  /\ fetch_table Sample.mysql "127.0.0.1" "root" "" Sample.cricbuzz_db
                 "players` #" (PInt 1) Sample.w0
     = (Ok (Sample.two_players, "SELECT * FROM `players` #` LIMIT 1;"),
        Sample.after_commented_limit)
  /\ py_int (PInt 1) = Ok 1%Z
  /\ (1 < Z.of_nat (List.length (rows Sample.two_players)))%Z.
Proof.
  split; [exact sample_honours_limit|].
  repeat split.
Qed.

Lemma system_databases_excluded_witness :
  (forall db info, In (db, info) Sample.catalog -> in_excluded db = false)
  /\ (forall name, In name excluded ->
                   cell_lookup (CStr name) Sample.catalog = None).
Proof.
  apply (system_databases_excluded Sample.mysql "127.0.0.1" "root" "" Sample.w0
           Sample.catalog
           (snd (get_mysql_schema Sample.mysql "127.0.0.1" "root" "" Sample.w0))).
  reflexivity.
Defined.



End GatewayFacts.

(* ================================================================== *)
(** ** More on stripping *)
(* ================================================================== *)

Module StripFacts.

(** A text that does not start with whitespace. *)
Definition no_lead (s : string) : Prop :=
  match s with
  | EmptyString => True
  | String a _ => is_space a = false
  end.

Lemma lstrip_no_lead (s : string) : no_lead (lstrip s).
Proof.
  induction s as [|a s IH]; simpl; [exact I|].
  destruct (is_space a) eqn:Ha; [exact IH | exact Ha].
Qed.

Lemma lstrip_fix (s : string) : no_lead s -> lstrip s = s.
Proof. destruct s as [|a s]; simpl; [reflexivity | intros ->; reflexivity]. Qed.

Lemma rstrip_no_lead (s : string) : no_lead s -> no_lead (rstrip s).
Proof.
  destruct s as [|a s]; simpl; [trivial|]. intros Ha.
  destruct (rstrip s); [rewrite Ha|]; exact Ha.
Qed.

Lemma rstrip_idempotent (s : string) : rstrip (rstrip s) = rstrip s.
Proof.
  induction s as [|a s IH]; [reflexivity|].
  cbn [rstrip]. destruct (rstrip s) as [|b r] eqn:R.
  - destruct (is_space a) eqn:Ha; [reflexivity|].
    cbn [rstrip]. rewrite Ha. reflexivity.
  - cbn [rstrip] in *. rewrite IH. reflexivity.
Qed.

(** Stripping twice is stripping once. *)
Lemma strip_idempotent (s : string) : strip (strip s) = strip s.
Proof.
  unfold strip.
  rewrite (lstrip_fix (rstrip (lstrip s))) by apply rstrip_no_lead, lstrip_no_lead.
  apply rstrip_idempotent.
Qed.

Lemma strip_not_blank (s : string) : all_space s = false -> strip s <> "".
Proof. intros H E. apply strip_empty_iff in E. congruence. Qed.

Lemma strip_blank_eqb (s : string) : (strip s =? "") = all_space s.
Proof.
  destruct (all_space s) eqn:A;
    [apply strip_eqb_blank | apply strip_eqb_not_blank]; exact A.
Qed.

End StripFacts.

(* ================================================================== *)
(** ** The SQL gateway: what each operation sends *)
(* ================================================================== *)

Module GatewayExtra.

Import Gateway GatewayFacts StripFacts.

(** The calls an operation on [db] may add to the log: none, the
    connection alone, the connection and one statement, or, when it
    succeeds, these two and the closing of the connection. *)
Inductive session (a : conn_args) (db : cell) : bool -> list db_call -> Prop :=
| session_refused : session a db false []
| session_not_sent : session a db false [Connect a]
| session_failed (sql : string) (ps : list cell) :
    session a db false [Connect a; Execute db sql ps]
| session_read_failed (sql : string) :
    session a db false [Connect a; ReadSql db sql]
| session_done (sql : string) (ps : list cell) :
    session a db true [Connect a; Execute db sql ps; Close db]
| session_read_done (sql : string) :
    session a db true [Connect a; ReadSql db sql; Close db].

Definition succeeded {A} (r : result A) : bool :=
  match r with Ok _ => true | Raise _ => false end.

Ltac split_server H :=
  match type of H with
  | context [connect ?E ?s ?a] =>
      let s1 := fresh "s" in let m := fresh "msg" in
      destruct (connect E s a) as [s1 [m|]] eqn:?
  | context [execute ?E ?s ?d ?q ?ps] =>
      let s1 := fresh "s" in let m := fresh "msg" in let r := fresh "res" in
      destruct (execute E s d q ps) as [s1 [m|r]] eqn:?
  | context [read_sql ?E ?s ?d ?q] =>
      let s1 := fresh "s" in let m := fresh "msg" in let r := fresh "df" in
      destruct (read_sql E s d q) as [s1 [m|r]] eqn:?
  end.

Ltac run_db_in H :=
  unfold create_connection, cursor_execute, pd_read_sql, close,
    bind, ret, raise, lift in H;
  cbn [srv log fst snd] in H;
  repeat (split_server H; cbn [srv log fst snd] in H).

Ltac close_log := rewrite <- ?app_assoc; cbn [app]; reflexivity.

Ltac split_guard H :=
  match type of H with
  | context [if ?c then _ else _] => destruct c
  end.

(** Runs the operation in [H] through every answer of the server and gives
    the calls it made in each case. *)
Ltac session_cases H :=
  run_db_in H; injection H as <- <-; cbn [succeeded log];
  eexists; (split; [first [close_log | symmetry; apply app_nil_r] | constructor]).

Section Statements.

Variable E : engine.
Variables h u p : string.
Variable db : cell.
Variable table : string.

Let args : conn_args :=
  {| host := h; user := u; password := p; database := db |}.

(** X1: [delete_rows] with a WHERE clause that is not blank succeeds exactly
    when the connection opens and the server accepts
    [DELETE FROM `table` WHERE cond;], [cond] being the clause without its
    surrounding whitespace (never empty); it then returns the server's row
    count with that text, after connecting, executing it with no parameter
    and closing.  Surrounding whitespace in the clause changes nothing. *)
Theorem delete_rows_statement (where_clause : string) (w : world E) :
  all_space where_clause = false ->
  let cond := strip where_clause in
  let sql := "DELETE FROM `" ++ table ++ "` WHERE " ++ cond ++ ";" in
  cond <> ""
  /\ strip cond = cond
  /\ (forall affected sql' w',
         delete_rows E h u p db table where_clause w = (Ok (affected, sql'), w')
         <-> exists s1 s2 rws,
             connect E (srv w) args = (s1, None)
             /\ execute E s1 db sql [] = (s2, inr (rws, affected))
             /\ sql' = sql
             /\ w' = {| srv := s2;
                        log := (log w ++ [Connect args; Execute db sql []; Close db])%list |})
  /\ delete_rows E h u p db table cond w
     = delete_rows E h u p db table where_clause w.
Proof.
  intros NB cond sql.
  assert (E1 : delete_rows E h u p db table where_clause w
               = (create_connection E h u p db ;;;
                  r <- cursor_execute E db sql [] ;;
                  close E db ;;;
                  ret (snd r, sql)) w).
  { unfold delete_rows. rewrite (strip_eqb_not_blank _ NB). reflexivity. }
  split; [apply strip_not_blank, NB|].
  split; [apply strip_idempotent|].
  split.
  - intros affected sql' w'. rewrite E1. split.
    + intros H. run_db_in H; try discriminate H.
      injection H as <- <- <-. destruct res as [rws n].
      exists s, s0, rws. repeat split; try assumption.
      cbn [snd]. f_equal. close_log.
    + intros (s1 & s2 & rws & C & X & -> & ->).
      unfold create_connection, cursor_execute, close, bind, ret.
      cbn [srv log]. fold args. rewrite C. cbn [srv log]. rewrite X.
      cbn [srv log snd]. f_equal. f_equal. close_log.
  - unfold delete_rows, cond. rewrite strip_idempotent. reflexivity.
Qed.

(** X2: [execute_update] with SET and WHERE clauses that are not blank succeeds
    exactly when the connection opens and the server accepts
    [UPDATE `table` SET set WHERE cond;] built from the two clauses without
    their surrounding whitespace; it then returns the server's row count
    with that text, after connecting, executing it with no parameter and
    closing.  Surrounding whitespace in either clause changes nothing. *)
Theorem execute_update_statement (set_clause where_clause : string) (w : world E) :
  all_space set_clause = false ->
  all_space where_clause = false ->
  let set_part := strip set_clause in
  let cond := strip where_clause in
  let sql := "UPDATE `" ++ table ++ "` SET " ++ set_part ++ " WHERE " ++ cond ++ ";" in
  (forall affected sql' w',
      execute_update E h u p db table set_clause where_clause w
      = (Ok (affected, sql'), w')
      <-> exists s1 s2 rws,
          connect E (srv w) args = (s1, None)
          /\ execute E s1 db sql [] = (s2, inr (rws, affected))
          /\ sql' = sql
          /\ w' = {| srv := s2;
                     log := (log w ++ [Connect args; Execute db sql []; Close db])%list |})
  /\ execute_update E h u p db table set_part cond w
     = execute_update E h u p db table set_clause where_clause w.
Proof.
  intros NS NW set_part cond sql.
  assert (E1 : execute_update E h u p db table set_clause where_clause w
               = (create_connection E h u p db ;;;
                  r <- cursor_execute E db sql [] ;;
                  close E db ;;;
                  ret (snd r, sql)) w).
  { unfold execute_update.
    rewrite (strip_eqb_not_blank _ NS), (strip_eqb_not_blank _ NW). reflexivity. }
  split.
  - intros affected sql' w'. rewrite E1. split.
    + intros H. run_db_in H; try discriminate H.
      injection H as <- <- <-. destruct res as [rws n].
      exists s, s0, rws. repeat split; try assumption.
      cbn [snd]. f_equal. close_log.
    + intros (s1 & s2 & rws & C & X & -> & ->).
      unfold create_connection, cursor_execute, close, bind, ret.
      cbn [srv log]. fold args. rewrite C. cbn [srv log]. rewrite X.
      cbn [srv log snd]. f_equal. f_equal. close_log.
  - unfold execute_update, set_part, cond. rewrite !strip_idempotent. reflexivity.
Qed.

(** X3: The INSERT text of [insert_row] is made of the table and the column
    names only: two field maps with the same columns give the same text,
    whatever their values; the values travel as the bound parameters of the
    one statement executed, one per column and in the order of the
    columns. *)
Theorem insert_row_binds_values
        (data data' : list (string * cell)) (w w2 : world E) :
  (forall affected sql w',
      insert_row E h u p db table data w = (Ok (affected, sql), w') ->
      log w' = (log w ++ [Connect args; Execute db sql (map snd data); Close db])%list
      /\ List.length (map snd data) = List.length (map fst data))
  /\ (map fst data = map fst data' ->
      forall affected sql w' affected' sql' w2',
        insert_row E h u p db table data w = (Ok (affected, sql), w') ->
        insert_row E h u p db table data' w2 = (Ok (affected', sql'), w2') ->
        sql = sql').
Proof.
  split.
  - intros affected sql w' H. unfold insert_row in H. run_db_in H; try discriminate H.
    injection H as <- <- <-. split; [close_log | now rewrite !length_map].
  - intros K affected sql w' affected' sql' w2' H H'.
    unfold insert_row in H, H'. rewrite <- K in H'.
    run_db_in H; try discriminate H. run_db_in H'; try discriminate H'.
    injection H as _ <- _. injection H' as _ <- _. reflexivity.
Qed.

(** X5: When [int(limit)] raises, or when the integer it gives is too long
    to be written, [fetch_table] has already opened its connection: the
    exception leaves with the connection open, no query sent and no
    [close]. *)
Theorem fetch_table_bad_limit (limit : pyval) (e : exn) (w : world E) (s : server E) :
  py_int limit = Raise e
  \/ (exists n, py_int limit = Ok n /\ format_int n = Raise e) ->
  connect E (srv w) args = (s, None) ->
  fetch_table E h u p db table limit w
  = (Raise e, {| srv := s; log := (log w ++ [Connect args])%list |}).
Proof.
  intros L C. unfold fetch_table, create_connection, bind, lift.
  cbn [srv log]. fold args. rewrite C.
  destruct L as [L | (n & L & F)]; rewrite L; [|rewrite F]; reflexivity.
Qed.

(** X4: Every operation of the gateway adds to the log either nothing (a
    refused call), or one connection and at most one statement on it; the
    connection is closed exactly when the operation succeeds. *)
Theorem one_connection_per_operation (w : world E) :
  (forall table_ limit,
      exists calls,
        log (snd (fetch_table E h u p db table_ limit w)) = (log w ++ calls)%list
        /\ session args db (succeeded (fst (fetch_table E h u p db table_ limit w))) calls)
  /\ (forall select_sql,
         exists calls,
           log (snd (run_select E h u p db select_sql w)) = (log w ++ calls)%list
           /\ session args db (succeeded (fst (run_select E h u p db select_sql w))) calls)
  /\ (forall data,
         exists calls,
           log (snd (insert_row E h u p db table data w)) = (log w ++ calls)%list
           /\ session args db (succeeded (fst (insert_row E h u p db table data w))) calls)
  /\ (forall where_clause,
         exists calls,
           log (snd (delete_rows E h u p db table where_clause w)) = (log w ++ calls)%list
           /\ session args db
                (succeeded (fst (delete_rows E h u p db table where_clause w))) calls)
  /\ (forall set_clause where_clause,
         exists calls,
           log (snd (execute_update E h u p db table set_clause where_clause w))
           = (log w ++ calls)%list
           /\ session args db
                (succeeded (fst (execute_update E h u p db table set_clause
                                   where_clause w))) calls).
Proof.
  repeat split.
  - intros table_ limit.
    destruct (fetch_table E h u p db table_ limit w) as [r w'] eqn:H.
    cbn [fst snd]. unfold fetch_table in H.
    unfold create_connection, bind, lift in H. cbn [srv log] in H.
    split_server H; [session_cases H|].
    destruct (py_int limit) as [n|e]; [destruct (format_int n) as [literal|e]|];
      session_cases H.
  - intros select_sql.
    destruct (run_select E h u p db select_sql w) as [r w'] eqn:H.
    cbn [fst snd]. unfold run_select in H. split_guard H; session_cases H.
  - intros data.
    destruct (insert_row E h u p db table data w) as [r w'] eqn:H.
    cbn [fst snd]. unfold insert_row in H. session_cases H.
  - intros where_clause.
    destruct (delete_rows E h u p db table where_clause w) as [r w'] eqn:H.
    cbn [fst snd]. unfold delete_rows in H. split_guard H; session_cases H.
  - intros set_clause where_clause.
    destruct (execute_update E h u p db table set_clause where_clause w)
      as [r w'] eqn:H.
    cbn [fst snd]. unfold execute_update in H.
    split_guard H; [|split_guard H]; session_cases H.
Qed.

End Statements.

End GatewayExtra.

(* ================================================================== *)
(** ** Schema discovery: the calls it makes and the errors it meets *)
(* ================================================================== *)

Module DiscoveryExtra.

Import Gateway GatewayFacts.

(** The database a call is about. *)
Definition call_db (c : db_call) : cell :=
  match c with
  | Connect a => database a
  | Execute d _ _ => d
  | ReadSql d _ => d
  | Close d => d
  end.

Definition user_call (c : db_call) : Prop := in_excluded (call_db c) = false.

Section Calls.

Variable E : engine.

(** [m] only adds calls that satisfy [P] to the log. *)
Definition adds (P : db_call -> Prop) {A} (m : DB E A) : Prop :=
  forall w, exists calls,
    log (snd (m w)) = (log w ++ calls)%list /\ Forall P calls.

(** What [m] returns and does to the server does not depend on the log. *)
Definition blind {A} (m : DB E A) : Prop :=
  forall w1 w2, srv w1 = srv w2 ->
    fst (m w1) = fst (m w2) /\ srv (snd (m w1)) = srv (snd (m w2)).

Variable P : db_call -> Prop.

Lemma adds_ret {A} (a : A) : adds P (ret a : DB E A).
Proof. intros w. exists []. split; [symmetry; apply app_nil_r | constructor]. Qed.

Lemma adds_lift {A} (r : result A) : adds P (lift r : DB E A).
Proof. intros w. exists []. split; [symmetry; apply app_nil_r | constructor]. Qed.

Lemma adds_bind {A B} (m : DB E A) (k : A -> DB E B) :
  adds P m -> (forall a, adds P (k a)) -> adds P (bind m k).
Proof.
  intros Hm Hk w. destruct (Hm w) as (c1 & L1 & F1). unfold bind.
  destruct (m w) as [[a|e] w1]; cbn [snd] in *.
  - destruct (Hk a w1) as (c2 & L2 & F2). exists (c1 ++ c2)%list.
    split; [rewrite L2, L1, app_assoc; reflexivity | apply Forall_app; split; assumption].
  - exists c1. split; assumption.
Qed.

Lemma adds_except {A} (m handler : DB E A) :
  adds P m -> adds P handler -> adds P (except_Error E m handler).
Proof.
  intros Hm Hh w. destruct (Hm w) as (c1 & L1 & F1). unfold except_Error.
  destruct (m w) as [[a|e] w1]; cbn [snd] in *; [exists c1; split; assumption|].
  destruct e; try (exists c1; split; assumption).
  destruct (Hh w1) as (c2 & L2 & F2). exists (c1 ++ c2)%list.
  split; [rewrite L2, L1, app_assoc; reflexivity | apply Forall_app; split; assumption].
Qed.

Lemma adds_connect (h u p : string) (db : cell) :
  P (Connect {| host := h; user := u; password := p; database := db |}) ->
  adds P (create_connection E h u p db).
Proof.
  intros HP w. eexists. unfold create_connection.
  destruct (connect E (srv w) _) as [s [msg|]]; cbn [snd log];
    (split; [reflexivity | repeat constructor; exact HP]).
Qed.

Lemma adds_execute (db : cell) (sql : string) (ps : list cell) :
  P (Execute db sql ps) -> adds P (cursor_execute E db sql ps).
Proof.
  intros HP w. eexists. unfold cursor_execute.
  destruct (execute E (srv w) db sql ps) as [s [msg|r]]; cbn [snd log];
    (split; [reflexivity | repeat constructor; exact HP]).
Qed.

Lemma adds_close (db : cell) : P (Close db) -> adds P (close E db).
Proof.
  intros HP w. eexists. unfold close. cbn [snd log].
  split; [reflexivity | repeat constructor; exact HP].
Qed.

Lemma blind_ret {A} (a : A) : blind (ret a : DB E A).
Proof. intros w1 w2 H. split; [reflexivity | exact H]. Qed.

Lemma blind_lift {A} (r : result A) : blind (lift r : DB E A).
Proof. intros w1 w2 H. split; [reflexivity | exact H]. Qed.

Lemma blind_bind {A B} (m : DB E A) (k : A -> DB E B) :
  blind m -> (forall a, blind (k a)) -> blind (bind m k).
Proof.
  intros Hm Hk w1 w2 H. destruct (Hm w1 w2 H) as [R S]. unfold bind.
  destruct (m w1) as [r1 v1], (m w2) as [r2 v2]. cbn [fst snd] in *. subst r2.
  destruct r1 as [a|e]; [apply Hk, S | split; [reflexivity | exact S]].
Qed.

Lemma blind_except {A} (m handler : DB E A) :
  blind m -> blind handler -> blind (except_Error E m handler).
Proof.
  intros Hm Hh w1 w2 H. destruct (Hm w1 w2 H) as [R S]. unfold except_Error.
  destruct (m w1) as [r1 v1], (m w2) as [r2 v2]. cbn [fst snd] in *. subst r2.
  destruct r1 as [a|e]; [split; [reflexivity | exact S]|].
  destruct e; try (split; [reflexivity | exact S]). apply Hh, S.
Qed.

Lemma blind_connect (h u p : string) (db : cell) :
  blind (create_connection E h u p db).
Proof.
  intros w1 w2 H. unfold create_connection. rewrite H.
  destruct (connect E (srv w2) _) as [s [msg|]]; split; reflexivity.
Qed.

Lemma blind_execute (db : cell) (sql : string) (ps : list cell) :
  blind (cursor_execute E db sql ps).
Proof.
  intros w1 w2 H. unfold cursor_execute. rewrite H.
  destruct (execute E (srv w2) db sql ps) as [s [msg|r]]; split; reflexivity.
Qed.

Lemma blind_close (db : cell) : blind (close E db).
Proof. intros w1 w2 H. unfold close. split; [reflexivity | exact H]. Qed.

End Calls.

Section Discovery.

Variable E : engine.
Variables h u p : string.

Lemma read_tables_adds (db_name : cell) (table_rows : list row) :
  in_excluded db_name = false ->
  forall acc, adds E user_call (read_tables E db_name table_rows acc).
Proof.
  intros X. induction table_rows as [|table_row rest IH]; intros acc.
  - apply adds_ret.
  - cbn [read_tables]. apply adds_bind; [apply adds_lift|]. intros table_name.
    apply adds_bind; [apply adds_execute; exact X|]. intros r.
    apply adds_bind; [apply adds_lift|]. intros cols. apply IH.
Qed.

Lemma discover_database_adds (db_name : cell) :
  in_excluded db_name = false ->
  adds E user_call (discover_database E h u p db_name).
Proof.
  intros X. unfold discover_database.
  apply adds_bind; [apply adds_connect; exact X|]. intros _.
  apply adds_bind; [apply adds_execute; exact X|]. intros r.
  destruct (fst r) as [|table_row rest]; [apply adds_ret|].
  apply adds_bind; [apply read_tables_adds; exact X|]. intros tbls.
  apply adds_bind; [apply adds_execute; exact X|]. intros v.
  apply adds_bind; [apply adds_lift|]. intros vws.
  apply adds_bind; [apply adds_close; exact X|]. intros _. apply adds_ret.
Qed.

Lemma discover_all_adds (dbs : list cell) :
  forall acc, adds E user_call (discover_all E h u p dbs acc).
Proof.
  induction dbs as [|db_name rest IH]; intros acc.
  - apply adds_ret.
  - cbn [discover_all]. destruct (in_excluded db_name) eqn:X; [apply IH|].
    apply adds_bind.
    + apply adds_except; [apply discover_database_adds; exact X | apply adds_ret].
    + intros [info|]; apply IH.
Qed.

Lemma read_tables_blind (db_name : cell) (table_rows : list row) :
  forall acc, blind E (read_tables E db_name table_rows acc).
Proof.
  induction table_rows as [|table_row rest IH]; intros acc.
  - apply blind_ret.
  - cbn [read_tables]. apply blind_bind; [apply blind_lift|]. intros table_name.
    apply blind_bind; [apply blind_execute|]. intros r.
    apply blind_bind; [apply blind_lift|]. intros cols. apply IH.
Qed.

Lemma discover_database_blind (db_name : cell) :
  blind E (discover_database E h u p db_name).
Proof.
  unfold discover_database.
  apply blind_bind; [apply blind_connect|]. intros _.
  apply blind_bind; [apply blind_execute|]. intros r.
  destruct (fst r) as [|table_row rest]; [apply blind_ret|].
  apply blind_bind; [apply read_tables_blind|]. intros tbls.
  apply blind_bind; [apply blind_execute|]. intros v.
  apply blind_bind; [apply blind_lift|]. intros vws.
  apply blind_bind; [apply blind_close|]. intros _. apply blind_ret.
Qed.

Lemma discover_all_blind (dbs : list cell) :
  forall acc, blind E (discover_all E h u p dbs acc).
Proof.
  induction dbs as [|db_name rest IH]; intros acc.
  - apply blind_ret.
  - cbn [discover_all]. destruct (in_excluded db_name); [apply IH|].
    apply blind_bind.
    + apply blind_except; [apply discover_database_blind | apply blind_ret].
    + intros [info|]; apply IH.
Qed.

(** X6: Schema discovery, whether it succeeds or not, makes no call on a
    system database: every connection it opens and every statement it
    sends is on the administrative connection or on a database that is not
    excluded. *)
Theorem discovery_never_opens_system_database (w : world E) :
  exists calls,
    log (snd (get_mysql_schema E h u p w)) = (log w ++ calls)%list
    /\ Forall user_call calls
    /\ (forall name a, In name excluded -> database a = CStr name ->
                       ~ In (Connect a) calls).
Proof.
  assert (A : adds E user_call (get_mysql_schema E h u p)).
  { unfold get_mysql_schema.
    apply adds_bind; [apply adds_connect; reflexivity|]. intros _.
    apply adds_bind; [apply adds_execute; reflexivity|]. intros r.
    apply adds_bind; [apply adds_lift|]. intros dbs.
    apply adds_bind; [apply discover_all_adds|]. intros full.
    apply adds_bind; [apply adds_close; reflexivity|]. intros _. apply adds_ret. }
  destruct (A w) as (calls & L & F). exists calls.
  split; [exact L|]. split; [exact F|].
  intros name a Hname Ha Hin. rewrite Forall_forall in F.
  specialize (F _ Hin). unfold user_call in F. cbn [call_db] in F.
  rewrite Ha, (in_excluded_name _ Hname) in F. discriminate.
Qed.

(** X7: A failure of the administrative connection is the failure of the whole
    discovery, after that single call; a database that refuses the
    connection (the server being left as it was) is passed over, and the
    catalog is the one that would be found if the database were not listed
    at all. *)
Theorem discovery_skips_refused_database :
  (forall (w : world E) s msg,
      connect E (srv w) {| host := h; user := u; password := p; database := CNull |}
      = (s, Some msg) ->
      get_mysql_schema E h u p w
      = (Raise (MySQLError msg),
         {| srv := s;
            log := (log w ++ [Connect {| host := h; user := u; password := p;
                                         database := CNull |}])%list |}))
  /\ (forall db rest acc (w : world E) msg,
         in_excluded db = false ->
         connect E (srv w) {| host := h; user := u; password := p; database := db |}
         = (srv w, Some msg) ->
         fst (discover_all E h u p (db :: rest) acc w)
         = fst (discover_all E h u p rest acc w)).
Proof.
  split.
  - intros w s msg C. unfold get_mysql_schema, create_connection, bind.
    cbn [srv log]. rewrite C. reflexivity.
  - intros db rest acc w msg X C. cbn [discover_all]. rewrite X.
    unfold bind at 1. unfold except_Error, discover_database.
    unfold create_connection at 1. unfold bind at 1. cbn [srv log]. rewrite C.
    unfold ret at 1.
    apply (discover_all_blind rest acc). reflexivity.
Qed.

End Discovery.

End DiscoveryExtra.

(* ================================================================== *)
(** ** The helpers over the catalog *)
(* ================================================================== *)

Module CatalogFacts.

Import Gateway GatewayFacts Catalog.

(** The order [sorted] puts names in. *)
Definition cell_le (a b : cell) : Prop :=
  match a, b with
  | CStr x, CStr y => String.leb x y = true
  | CInt x, CInt y => (x <= y)%Z
  | _, _ => False
  end.

Section SortFacts.

Variable A : Type.
Variable leb : A -> A -> bool.
Hypothesis leb_total : forall x y, leb x y = true \/ leb y x = true.

Let le (x y : A) : Prop := leb x y = true.

Lemma insert_sorted_perm (x : A) (l : list A) :
  Permutation (x :: l) (insert_sorted leb x l).
Proof.
  induction l as [|y rest IH]; simpl; [reflexivity|].
  destruct (leb x y); [reflexivity|].
  rewrite perm_swap. apply perm_skip, IH.
Qed.

Lemma sort_perm (l : list A) : Permutation l (sort leb l).
Proof.
  induction l as [|x rest IH]; simpl; [reflexivity|].
  rewrite <- insert_sorted_perm. apply perm_skip, IH.
Qed.

Lemma insert_sorted_HdRel (a x : A) (l : list A) :
  le a x -> HdRel le a l -> HdRel le a (insert_sorted leb x l).
Proof.
  intros Hax Hl. destruct l as [|y rest]; simpl; [constructor; exact Hax|].
  destruct (leb x y); constructor; [exact Hax|].
  inversion Hl; assumption.
Qed.

Lemma insert_sorted_Sorted (x : A) (l : list A) :
  Sorted le l -> Sorted le (insert_sorted leb x l).
Proof.
  induction 1 as [|y rest Hs IH Hh]; simpl; [repeat constructor|].
  destruct (leb x y) eqn:Lxy.
  - constructor; [constructor; assumption | constructor; exact Lxy].
  - constructor; [exact IH|]. apply insert_sorted_HdRel; [|exact Hh].
    destruct (leb_total x y) as [H|H]; [congruence | exact H].
Qed.

Lemma sort_Sorted (l : list A) : Sorted le (sort leb l).
Proof.
  induction l as [|x rest IH]; simpl; [constructor|].
  apply insert_sorted_Sorted, IH.
Qed.

End SortFacts.

Lemma Sorted_map {A B} (R : A -> A -> Prop) (R' : B -> B -> Prop) (f : A -> B)
      (l : list A) :
  (forall x y, R x y -> R' (f x) (f y)) -> Sorted R l -> Sorted R' (map f l).
Proof.
  intros HR. induction 1 as [|x rest Hs IH Hh]; simpl; constructor; [exact IH|].
  destruct Hh; simpl; constructor. apply HR. assumption.
Qed.

Lemma all_strings_map (l : list cell) (ss : list string) :
  all_strings l = Some ss -> l = map CStr ss.
Proof.
  revert ss. induction l as [|c rest IH]; intros ss H; simpl in H.
  - injection H as <-. reflexivity.
  - destruct c; try discriminate H.
    destruct (all_strings rest) as [ss'|]; [|discriminate H].
    injection H as <-. simpl. f_equal. apply IH. reflexivity.
Qed.

Lemma all_ints_map (l : list cell) (zs : list Z) :
  all_ints l = Some zs -> l = map CInt zs.
Proof.
  revert zs. induction l as [|c rest IH]; intros zs H; simpl in H.
  - injection H as <-. reflexivity.
  - destruct c; try discriminate H.
    destruct (all_ints rest) as [zs'|]; [|discriminate H].
    injection H as <-. simpl. f_equal. apply IH. reflexivity.
Qed.

Lemma Zleb_total (x y : Z) : (x <=? y)%Z = true \/ (y <=? x)%Z = true.
Proof. destruct (Z.leb_spec x y); [left; reflexivity | right; apply Z.leb_le; lia]. Qed.

(** [sorted] rearranges its argument into ascending order. *)
Lemma py_sorted_spec (l l' : list cell) :
  py_sorted l = Ok l' -> Permutation l l' /\ Sorted cell_le l'.
Proof.
  unfold py_sorted. destruct l as [|a [|b rest]].
  - intros H. injection H as <-. split; [reflexivity | constructor].
  - intros H. injection H as <-. split; [reflexivity | repeat constructor].
  - destruct (all_strings (a :: b :: rest)) as [ss|] eqn:S.
    + intros H. injection H as <-. rewrite (all_strings_map _ _ S). split.
      * apply Permutation_map, sort_perm.
      * apply (Sorted_map (fun x y => String.leb x y = true)); [auto|].
        apply sort_Sorted, String.leb_total.
    + destruct (all_ints (a :: b :: rest)) as [zs|] eqn:Z; [|discriminate].
      intros H. injection H as <-. rewrite (all_ints_map _ _ Z). split.
      * apply Permutation_map, sort_perm.
      * apply (Sorted_map (fun x y => Z.leb x y = true)).
        { intros x y Hxy. apply Z.leb_le, Hxy. }
        apply sort_Sorted, Zleb_total.
Qed.

Section Helpers.

Variable E : engine.
Variables h u p : string.

(** X8: When [list_databases] returns, its names are those of the catalog
    found by the same run of the discovery, each once if the catalog has
    it once, in ascending order, and none of them is a system database. *)
Theorem list_databases_sorted (w : world E) (names : list cell) (w' : world E) :
  list_databases E h u p w = (Ok names, w') ->
  exists schema,
    get_mysql_schema E h u p w = (Ok schema, w')
    /\ Permutation (map fst schema) names
    /\ Sorted cell_le names
    /\ Forall (fun name => in_excluded name = false) names.
Proof.
  intros H. unfold list_databases in H.
  apply bind_Ok_inv in H as (schema & w1 & G & H).
  apply lift_Ok_inv in H as [S ->]. exists schema.
  destruct (py_sorted_spec _ _ S) as [Perm Srt].
  repeat split; try assumption.
  pose proof (get_mysql_schema_Forall E h u p
                (fun kv => in_excluded (fst kv) = false)
                (fun db info w1 w2 X _ => X) _ _ _ G) as F.
  rewrite Forall_forall in *. intros name Hin.
  apply (Permutation_in _ (Permutation_sym Perm)) in Hin.
  apply in_map_iff in Hin as (kv & <- & Hkv). exact (F _ Hkv).
Qed.

(** X9: Asking the helpers about a database that the catalog does not hold,
    as every system database is, or about a table it does not hold, gives
    an empty answer and never an error, whenever the discovery itself
    succeeds. *)
Theorem unknown_names_give_empty_answers
        (w : world E) (schema : list (cell * db_info)) (w' : world E) :
  get_mysql_schema E h u p w = (Ok schema, w') ->
  (forall database,
      cell_lookup database schema = None ->
      list_tables E h u p database w = (Ok [], w')
      /\ forall table, get_table_columns E h u p database table w = (Ok [], w'))
  /\ (forall name,
         In name excluded ->
         list_tables E h u p (CStr name) w = (Ok [], w')
         /\ forall table, get_table_columns E h u p (CStr name) table w = (Ok [], w'))
  /\ (forall database table,
         cell_lookup table (tables_of schema database) = None ->
         get_table_columns E h u p database table w = (Ok [], w')).
Proof.
  intros G.
  assert (U : forall database,
             cell_lookup database schema = None ->
             list_tables E h u p database w = (Ok [], w')
             /\ forall table,
                 get_table_columns E h u p database table w = (Ok [], w')).
  { intros database Hn. unfold list_tables, get_table_columns, bind, tables_of.
    rewrite G, Hn. split; reflexivity. }
  split; [exact U|]. split.
  - intros name Hname. apply U. apply cell_lookup_absent.
    pose proof (get_mysql_schema_Forall E h u p
                  (fun kv => in_excluded (fst kv) = false)
                  (fun db info w1 w2 X _ => X) _ _ _ G) as F.
    eapply Forall_impl; [|exact F].
    intros [k info] K Heq. cbn [fst] in K, Heq. subst k.
    rewrite (in_excluded_name _ Hname) in K. discriminate.
  - intros database table Hn. unfold get_table_columns, bind.
    rewrite G, Hn. reflexivity.
Qed.

End Helpers.

End CatalogFacts.

(* ================================================================== *)
(** ** The scorecard page: rows, numbering and failures *)
(* ================================================================== *)

Module NormalizerExtra.

Import Normalizer NormalizerFacts.

Definition batting_columns : list string :=
  ["Name"; "Runs"; "Balls"; "4s"; "6s"; "SR"; "Out"].

Definition bowling_columns : list string :=
  ["Name"; "Overs"; "Runs"; "Wickets"; "Maidens"; "Economy"].

(** The innings numbers shown by the subheaders of a page, in order. *)
Definition subheader_numbers (events : list ui_event) : list nat :=
  flat_map (fun e => match e with StSubheader i _ => [i] | _ => [] end) events.

(** The subheaders of a page, in order: the innings number and the batting
    team each one shows. *)
Definition subheaders (events : list ui_event) : list (nat * pyval) :=
  flat_map (fun e => match e with StSubheader i team => [(i, team)] | _ => [] end)
           events.

(** An innings the page can show: a mapping whose batsmen and bowlers are
    mappings. *)
Definition showable (innings : pyval) : Prop :=
  exists inn,
    innings = PDict inn
    /\ Forall (fun b => is_dict b = true) (batsmen_source inn)
    /\ Forall (fun b => is_dict b = true) (bowlers_source inn).

Lemma rmap_length {A B} (f : A -> result B) (l : list A) (l' : list B) :
  rmap f l = Ok l' -> List.length l' = List.length l.
Proof.
  revert l'. induction l as [|x rest IH]; intros l' H; simpl in H.
  - injection H as <-. reflexivity.
  - destruct (f x) as [y|e]; [|discriminate]. cbn [rbind] in H.
    destruct (rmap f rest) as [ys|e]; [|discriminate]. cbn [rbind] in H.
    injection H as <-. simpl. f_equal. apply IH. reflexivity.
Qed.

Lemma rmap_Forall {A B} (f : A -> result B) (Q : B -> Prop) (l : list A)
      (l' : list B) :
  (forall x y, f x = Ok y -> Q y) -> rmap f l = Ok l' -> Forall Q l'.
Proof.
  intros HQ. revert l'. induction l as [|x rest IH]; intros l' H; simpl in H.
  - injection H as <-. constructor.
  - destruct (f x) as [y|e] eqn:Fx; [|discriminate]. cbn [rbind] in H.
    destruct (rmap f rest) as [ys|e]; [|discriminate]. cbn [rbind] in H.
    injection H as <-. constructor; [exact (HQ _ _ Fx) | apply IH; reflexivity].
Qed.

Lemma rmap_Raise {A B} (f : A -> result B) (l : list A) (e : exn) :
  rmap f l = Raise e -> exists x, In x l /\ f x = Raise e.
Proof.
  induction l as [|x rest IH]; intros H; simpl in H; [discriminate|].
  destruct (f x) as [y|e'] eqn:Fx; cbn [rbind] in H.
  - destruct (rmap f rest) as [ys|e'']; [discriminate|]. cbn [rbind] in H.
    injection H as ->. destruct (IH eq_refl) as (x' & Hin & Hx).
    exists x'. split; [right; exact Hin | exact Hx].
  - injection H as ->. exists x. split; [left; reflexivity | exact Fx].
Qed.

Lemma rmap_Ok {A B} (f : A -> result B) (l : list A) :
  Forall (fun x => exists y, f x = Ok y) l -> exists l', rmap f l = Ok l'.
Proof.
  induction 1 as [|x rest [y Fx] _ [ys IH]]; simpl.
  - exists []. reflexivity.
  - rewrite Fx, IH. eexists. reflexivity.
Qed.

Lemma rmap_Ok_inv {A B} (f : A -> result B) (l : list A) (l' : list B) :
  rmap f l = Ok l' -> Forall (fun x => exists y, f x = Ok y) l.
Proof.
  revert l'. induction l as [|x rest IH]; intros l' H; [constructor|].
  simpl in H. destruct (f x) as [y|e] eqn:Fx; [|discriminate]. cbn [rbind] in H.
  destruct (rmap f rest) as [ys|e]; [|discriminate].
  constructor; [exists y; exact Fx | apply (IH ys); reflexivity].
Qed.

Lemma batting_row_dict (b : pyval) :
  is_dict b = true -> exists row, batting_row b = Ok row.
Proof. destruct b; try discriminate. intros _. eexists. reflexivity. Qed.

Lemma bowling_row_dict (b : pyval) :
  is_dict b = true -> exists row, bowling_row b = Ok row.
Proof. destruct b; try discriminate. intros _. eexists. reflexivity. Qed.

Lemma batting_row_Raise (b : pyval) (e : exn) :
  batting_row b = Raise e -> e = AttributeError /\ is_dict b = false.
Proof. destruct b; cbn; intros H; try discriminate H; injection H as <-; auto. Qed.

Lemma bowling_row_Raise (b : pyval) (e : exn) :
  bowling_row b = Raise e -> e = AttributeError /\ is_dict b = false.
Proof. destruct b; cbn; intros H; try discriminate H; injection H as <-; auto. Qed.

Lemma batting_row_keys (b : pyval) (row : dict) :
  batting_row b = Ok row -> keys row = batting_columns.
Proof. destruct b; cbn; intros H; try discriminate H. injection H as <-. reflexivity. Qed.

Lemma bowling_row_keys (b : pyval) (row : dict) :
  bowling_row b = Ok row -> keys row = bowling_columns.
Proof. destruct b; cbn; intros H; try discriminate H. injection H as <-. reflexivity. Qed.

Lemma rmap_Forall2 {A B} (f : A -> result B) (l : list A) (l' : list B) :
  rmap f l = Ok l' -> Forall2 (fun x y => f x = Ok y) l l'.
Proof.
  revert l'. induction l as [|x rest IH]; intros l' H; simpl in H.
  - injection H as <-. constructor.
  - destruct (f x) as [y|e] eqn:Fx; [|discriminate]. cbn [rbind] in H.
    destruct (rmap f rest) as [ys|e]; [|discriminate]. cbn [rbind] in H.
    injection H as <-. constructor; [exact Fx | apply IH; reflexivity].
Qed.

Lemma batsmen_list_dicts (innings : dict) :
  Forall (fun b => is_dict b = true) (batsmen_source innings)
  <-> exists rows, batsmen_list innings = Ok rows.
Proof.
  unfold batsmen_list. split.
  - intros F. apply rmap_Ok. eapply Forall_impl; [|exact F]. apply batting_row_dict.
  - intros [rows H]. apply rmap_Ok_inv in H.
    eapply Forall_impl; [|exact H]. intros b [row Hb]. destruct b; try discriminate Hb.
    reflexivity.
Qed.

Lemma bowlers_list_dicts (innings : dict) :
  Forall (fun b => is_dict b = true) (bowlers_source innings)
  <-> exists rows, bowlers_list innings = Ok rows.
Proof.
  unfold bowlers_list. split.
  - intros F. apply rmap_Ok. eapply Forall_impl; [|exact F]. apply bowling_row_dict.
  - intros [rows H]. apply rmap_Ok_inv in H.
    eapply Forall_impl; [|exact H]. intros b [row Hb]. destruct b; try discriminate Hb.
    reflexivity.
Qed.

Lemma participants_raise (innings : dict) (e : exn) :
  batsmen_list innings = Raise e \/ bowlers_list innings = Raise e ->
  e = AttributeError.
Proof.
  unfold batsmen_list, bowlers_list.
  intros [H|H]; apply rmap_Raise in H as (x & _ & Hx).
  - apply batting_row_Raise in Hx. tauto.
  - apply bowling_row_Raise in Hx. tauto.
Qed.

(** X10: The batting and bowling tables of an innings have one row per
    participant, in the order of the participants (the row at each position
    is the one made from the participant at that position), each with the
    same columns in the same order whatever fields the participant has; the
    tables are built exactly when every participant is a mapping, and fail
    with [AttributeError] otherwise. *)
Theorem tables_have_fixed_columns (innings : dict) :
  (forall rows,
      batsmen_list innings = Ok rows ->
      List.length rows = List.length (batsmen_source innings)
      /\ Forall2 (fun batsman row => batting_row batsman = Ok row
                                     /\ keys row = batting_columns)
                 (batsmen_source innings) rows)
  /\ (forall rows,
         bowlers_list innings = Ok rows ->
         List.length rows = List.length (bowlers_source innings)
         /\ Forall2 (fun bowler row => bowling_row bowler = Ok row
                                       /\ keys row = bowling_columns)
                    (bowlers_source innings) rows)
  /\ (Forall (fun b => is_dict b = true) (batsmen_source innings)
      <-> exists rows, batsmen_list innings = Ok rows)
  /\ (Forall (fun b => is_dict b = true) (bowlers_source innings)
      <-> exists rows, bowlers_list innings = Ok rows)
  /\ (forall e, batsmen_list innings = Raise e \/ bowlers_list innings = Raise e ->
                e = AttributeError).
Proof.
  split; [|split; [|split; [|split]]].
  - unfold batsmen_list. intros rows H. split; [eapply rmap_length; eassumption|].
    eapply Forall2_impl; [|exact (rmap_Forall2 _ _ _ H)].
    intros b row Hb. split; [exact Hb | exact (batting_row_keys _ _ Hb)].
  - unfold bowlers_list. intros rows H. split; [eapply rmap_length; eassumption|].
    eapply Forall2_impl; [|exact (rmap_Forall2 _ _ _ H)].
    intros b row Hb. split; [exact Hb | exact (bowling_row_keys _ _ Hb)].
  - apply batsmen_list_dicts.
  - apply bowlers_list_dicts.
  - apply participants_raise.
Qed.

Lemma subheader_numbers_app (a b : list ui_event) :
  subheader_numbers (a ++ b) = (subheader_numbers a ++ subheader_numbers b)%list.
Proof. apply flat_map_app. Qed.

Lemma subheaders_app (a b : list ui_event) :
  subheaders (a ++ b) = (subheaders a ++ subheaders b)%list.
Proof. apply flat_map_app. Qed.

Ltac close_trace := rewrite <- ?app_assoc; cbn [app]; reflexivity.

(** One innings: what it adds to the page, and how it can fail. *)
Lemma show_innings_run (i : nat) (innings : pyval) (tr : list ui_event) :
  exists events,
    snd (show_innings i innings tr) = (tr ++ events)%list
    /\ (fst (show_innings i innings tr) = Ok tt ->
        subheader_numbers events = [i]
        /\ exists inn, innings = PDict inn
                       /\ subheaders events = [(i, bat_team_name inn)])
    /\ (forall e, fst (show_innings i innings tr) = Raise e -> e = AttributeError)
    /\ (showable innings -> fst (show_innings i innings tr) = Ok tt).
Proof.
  destruct innings as [| | | | | |inn];
    try (exists []; cbn; rewrite app_nil_r;
         repeat split; try discriminate;
         [intros e H; injection H as <-; reflexivity
         | intros (x & Hx & _); discriminate Hx]).
  pose proof (batsmen_list_dicts inn) as Bat.
  pose proof (bowlers_list_dicts inn) as Bowl.
  pose proof (participants_raise inn) as Err.
  unfold show_innings, show_table, bind, lift, emit, ret. cbn [as_dict].
  destruct (batsmen_list inn) as [[|r rs]|e1] eqn:B;
    destruct (bowlers_list inn) as [[|r' rs']|e2] eqn:W;
    cbn [fst snd]; eexists;
    (split; [close_trace|]);
    (split; [intros; try discriminate;
             (split; [reflexivity | exists inn; split; reflexivity])|]);
    (split; [intros e H; try discriminate H; injection H as <-;
             apply Err; auto|]);
    intros (x & Hx & Fb & Fw); injection Hx as <-;
    try reflexivity;
    try (apply Bat in Fb; destruct Fb as [? Fb]; discriminate Fb);
    try (apply Bowl in Fw; destruct Fw as [? Fw]; discriminate Fw).
Qed.

Lemma show_all_innings_run (l : list pyval) :
  forall (i : nat) (tr : list ui_event),
  exists events,
    snd (show_all_innings i l tr) = (tr ++ events)%list
    /\ (fst (show_all_innings i l tr) = Ok tt ->
        subheader_numbers events = seq i (List.length l)
        /\ exists inns,
            l = map PDict inns
            /\ subheaders events
               = combine (seq i (List.length inns)) (map bat_team_name inns))
    /\ (forall e, fst (show_all_innings i l tr) = Raise e -> e = AttributeError)
    /\ (Forall showable l -> fst (show_all_innings i l tr) = Ok tt).
Proof.
  induction l as [|x rest IH]; intros i tr.
  - exists []. cbn. rewrite app_nil_r. repeat split; try discriminate.
    exists []. split; reflexivity.
  - destruct (show_innings_run i x tr) as (ev1 & T1 & N1 & E1 & S1).
    cbn [show_all_innings]. unfold bind.
    destruct (show_innings i x tr) as [[[]|e] tr1]; cbn [fst snd] in *.
    + destruct (IH (S i) tr1) as (ev2 & T2 & N2 & E2 & S2).
      exists (ev1 ++ ev2)%list. split; [rewrite T2, T1, app_assoc; reflexivity|].
      split.
      { intros H. destruct (N1 eq_refl) as (Nn1 & inn & -> & Sh1).
        destruct (N2 H) as (Nn2 & inns & -> & Sh2). split.
        - rewrite subheader_numbers_app, Nn1, Nn2. reflexivity.
        - exists (inn :: inns). split; [reflexivity|].
          rewrite subheaders_app, Sh1, Sh2. reflexivity. }
      split; [exact E2|].
      intros F. inversion F; subst. apply S2. assumption.
    + exists ev1. split; [exact T1|]. split; [discriminate|].
      split; [exact E1|].
      intros F. inversion F; subst. specialize (S1 H1). discriminate S1.
Qed.

(** X11: When the scorecard page goes through, every innings of the document
    is a mapping and has one subheader, in the order of the document: the
    subheader at position [k] carries the number [k], counted from 1, and
    the batting team of the innings at that position. *)
Theorem innings_are_numbered_from_one
        (data : dict) (l : list pyval) (events : list ui_event) :
  innings_collection data = Some (PList l) ->
  show_innings_scorecard (ApiData (PDict data)) [] = (Ok tt, events) ->
  subheader_numbers events = seq 1 (List.length l)
  /\ exists inns,
      l = map PDict inns
      /\ subheaders events
         = combine (seq 1 (List.length inns)) (map bat_team_name inns).
Proof.
  intros C H. rewrite (show_innings_scorecard_found _ _ _ C) in H.
  cbn [py_iter] in H. rewrite bind_lift_Ok in H.
  destruct (show_all_innings_run l 1 []) as (ev & T & N & _ & _).
  rewrite H in T, N. cbn [fst snd app] in T, N. subst ev. apply N. reflexivity.
Qed.

(** X12: The only exceptions that leave the scorecard page are
    [AttributeError] (a part of the document that should be a mapping is
    not one) and [TypeError] (the innings collection is a number or a
    boolean); a failure of the API is shown, not raised; and a collection
    that is a list of innings whose batsmen and bowlers are mappings is
    shown without any exception. *)
Theorem scorecard_page_failures :
  (forall resp tr e tr',
      show_innings_scorecard resp tr = (Raise e, tr') ->
      e = AttributeError \/ e = TypeError)
  /\ (forall msg tr,
         show_innings_scorecard (ApiError msg) tr = (Ok tt, (tr ++ [StError msg])%list))
  /\ (forall data l tr,
         innings_collection data = Some (PList l) ->
         Forall showable l ->
         fst (show_innings_scorecard (ApiData (PDict data)) tr) = Ok tt).
Proof.
  split; [|split].
  - intros resp tr e tr' H. destruct resp as [msg|data]; [discriminate H|].
    unfold show_innings_scorecard in H.
    destruct (negb (truthy data)); [discriminate H|].
    unfold bind at 1, lift at 1 in H.
    destruct (as_dict data) as [d|e0] eqn:D.
    2:{ destruct data; try discriminate D; injection D as <-;
        injection H as <- _; auto. }
    destruct (negb (truthy (find_innings d))); [discriminate H|].
    unfold bind, lift in H.
    destruct (py_iter (dict_to_list (find_innings d))) as [items|e1] eqn:I.
    + destruct (show_all_innings_run items 1 tr) as (_ & _ & _ & Er & _).
      left. apply Er. rewrite H. reflexivity.
    + injection H as <- _. right.
      destruct (dict_to_list (find_innings d)); try discriminate I;
        injection I as <-; reflexivity.
  - reflexivity.
  - intros data l tr C F. rewrite (show_innings_scorecard_found _ _ _ C).
    cbn [py_iter]. rewrite bind_lift_Ok.
    destruct (show_all_innings_run l 1 tr) as (_ & _ & _ & _ & S). exact (S F).
Qed.

End NormalizerExtra.

(* ================================================================== *)
(** ** The live page: series offered, one match, dates *)
(* ================================================================== *)

Module LivePageFacts.

Import Normalizer LivePage.

(** The mapping under [k], empty when [k] is absent. *)
Definition section_of (d : dict) (k : string) : dict :=
  match lookup k d with
  | Some (PDict x) => x
  | _ => []
  end.

Lemma as_dict_section (d : dict) (k : string) :
  absent_or_dict d k = true ->
  as_dict (get_default d k (PDict [])) = Ok (section_of d k).
Proof.
  unfold absent_or_dict, get_default, section_of.
  destruct (lookup k d) as [[]|]; try discriminate; reflexivity.
Qed.

Lemma bind_lift_ok {S A B} (a : A) (k : A -> M S B) (s : S) :
  bind (lift (Ok a)) k s = k a s.
Proof. reflexivity. Qed.

Lemma as_dict_not_dict (d : dict) (k : string) (v : pyval) :
  lookup k d = Some v -> is_dict v = false ->
  as_dict (get_default d k (PDict [])) = Raise AttributeError.
Proof.
  unfold get_default. intros -> D. destruct v; try reflexivity; discriminate D.
Qed.

Lemma dict_set_keys_In {V} (k : string) (v : V) (d : list (string * V)) (x : string) :
  In x (keys (dict_set k v d)) -> x = k \/ In x (keys d).
Proof.
  induction d as [|[k' v'] rest IH]; simpl.
  - intros [<-|[]]. left. reflexivity.
  - destruct (k' =? k) eqn:Q; simpl.
    + tauto.
    + intros [<-|H]; [right; left; reflexivity|].
      destruct (IH H); [left | right; right]; assumption.
Qed.

Lemma dict_set_NoDup {V} (k : string) (v : V) (d : list (string * V)) :
  NoDup (keys d) -> NoDup (keys (dict_set k v d)).
Proof.
  induction d as [|[k' v'] rest IH]; simpl; intros H.
  - constructor; [intros [] | constructor].
  - inversion H as [|? ? Hnot Hrest]; subst.
    destruct (k' =? k) eqn:Q; simpl; [constructor; assumption|].
    constructor; [|apply IH; exact Hrest].
    intros Hin. apply dict_set_keys_In in Hin as [->|Hin]; [|contradiction].
    rewrite String.eqb_refl in Q. discriminate.
Qed.

Lemma dict_set_Forall {V} (Q : V -> Prop) (k : string) (v : V) (d : list (string * V)) :
  Forall (fun kv => Q (snd kv)) d -> Q v ->
  Forall (fun kv => Q (snd kv)) (dict_set k v d).
Proof.
  intros Hd Hv. induction Hd as [|[k' v'] rest Hx Hrest IH]; simpl.
  - constructor; [exact Hv | constructor].
  - destruct (k' =? k); constructor; assumption.
Qed.

(** A grouping whose keys are all different and whose series all have
    matches. *)
Definition proper_options (options : dict) : Prop :=
  NoDup (keys options) /\ Forall (fun kv => truthy (snd kv) = true) options.

Section Series.

Variable py_str : pyval -> string.
Variable upper : string -> string.

Lemma rfold_invariant {A B} (P : A -> Prop) (f : A -> B -> result A) (l : list B) :
  (forall a b a', P a -> f a b = Ok a' -> P a') ->
  forall acc r, P acc -> rfold f l acc = Ok r -> P r.
Proof.
  intros Hf. induction l as [|x rest IH]; intros acc r Hacc H; simpl in H.
  - injection H as <-. exact Hacc.
  - destruct (f acc x) as [a|e] eqn:Fx; [|discriminate]. cbn [rbind] in H.
    exact (IH _ _ (Hf _ _ _ Hacc Fx) H).
Qed.

Lemma add_series_proper (match_type : string) (options : dict) (series : pyval)
      (options' : dict) :
  proper_options options ->
  add_series py_str match_type options series = Ok options' ->
  proper_options options'.
Proof.
  intros [ND F] H. unfold add_series in H.
  destruct (as_dict series) as [s|e]; [|discriminate]. cbn [rbind] in H.
  destruct (as_dict _) as [wrapper|e]; [|discriminate]. cbn [rbind] in H.
  destruct (truthy (get wrapper "matches")) eqn:T; cbn [negb] in H;
    injection H as <-; [|split; assumption].
  split; [apply dict_set_NoDup, ND|].
  apply (dict_set_Forall (fun v => truthy v = true)); assumption.
Qed.

(** X13: The series offered by the live page have pairwise different labels,
    and each of them has at least one match: a series without matches is
    never offered, and a label met twice is offered once. *)
Theorem series_offered_are_proper (data : dict) (options : dict) :
  series_options py_str upper data = Ok options -> proper_options options.
Proof.
  unfold series_options. intros H.
  destruct (py_iter _) as [type_matches|e]; [|discriminate]. cbn [rbind] in H.
  refine (rfold_invariant proper_options _ _ _ _ _ _ H).
  - intros acc type_match acc' Hacc Ha. unfold add_type_match in Ha.
    destruct (as_dict type_match) as [tm|e]; [|discriminate]. cbn [rbind] in Ha.
    destruct (call_upper upper _) as [match_type|e]; [|discriminate].
    cbn [rbind] in Ha.
    destruct (py_iter _) as [series_matches|e]; [|discriminate]. cbn [rbind] in Ha.
    refine (rfold_invariant proper_options _ _ _ _ _ Hacc Ha).
    intros a b a' Pa Hb. exact (add_series_proper _ _ _ _ Pa Hb).
  - split; constructor.
Qed.

End Series.

Section OneMatch.

Variable local_time_text : Q -> option string.

(** X14: The date shown is "N/A" for every value that is falsy (null, 0, an
    empty text), for every value [int] does not take, and so for every
    text that holds a character other than a blank [int] skips, a sign, a
    digit or an underscore (the separators U+001C to U+001F among them); a
    text that [int] reads as a number other than 0 is shown as that number
    is; and any other text shown comes from the clock's formatting of the
    value divided by 1000. *)
Theorem format_time_not_available :
  (forall v, truthy v = false -> format_time local_time_text v = "N/A")
  /\ (forall v e, py_int v = Raise e -> format_time local_time_text v = "N/A")
  /\ (forall s a,
         contains a s = true -> IntFacts.literal_char a = false ->
         format_time local_time_text (PStr s) = "N/A")
  /\ (forall s n, int_of_str s = Ok n -> n <> 0%Z ->
                  format_time local_time_text (PStr s)
                  = format_time local_time_text (PInt n))
  /\ (forall v,
         format_time local_time_text v = "N/A"
         \/ exists n, py_int v = Ok n
                      /\ local_time_text (Qmake n 1000)
                         = Some (format_time local_time_text v)).
Proof.
  unfold format_time. split; [|split; [|split; [|split]]].
  - intros v ->. reflexivity.
  - intros v e ->. destruct (negb (truthy v)); reflexivity.
  - intros s a C L. destruct (IntFacts.int_of_str_rejects s a C L) as [msg I].
    cbn [py_int]. rewrite I. destruct (negb (truthy (PStr s))); reflexivity.
  - intros s n I Z. cbn [py_int truthy]. rewrite I.
    destruct s as [|a s]; [discriminate I|]. cbn [String.eqb negb].
    destruct (Z.eqb_spec n 0); [contradiction | reflexivity].
  - intros v. destruct (negb (truthy v)); [left; reflexivity|].
    destruct (py_int v) as [n|e]; [|left; reflexivity].
    destruct (local_time_text (Qmake n 1000)) as [t|] eqn:T; [|left; reflexivity].
    right. exists n. split; [reflexivity | exact T].
Qed.

(** X15: A match without [matchScore], whose [matchInfo] and whose [team1],
    [team2] and [venueInfo] are each absent or a mapping, is shown by its
    seven header lines and no score line, and nothing is raised; missing
    fields show their defaults. *)
Theorem match_without_score (m : dict) (tr : list match_event) :
  absent_or_dict m "matchInfo" = true ->
  lookup "matchScore" m = None ->
  let info := section_of m "matchInfo" in
  absent_or_dict info "team1" = true ->
  absent_or_dict info "team2" = true ->
  absent_or_dict info "venueInfo" = true ->
  show_match local_time_text (PDict m) tr
  = (Ok tt,
     (tr ++ [ StMatchSubheader
                (get_default (section_of info "team1") "teamName" (PStr "Team 1"))
                (get_default (section_of info "team2") "teamName" (PStr "Team 2"));
              StMatchLine (get_default info "matchDesc" (PStr ""))
                          (get_default info "matchFormat" (PStr ""));
              StStatusLine (get_default info "status" (PStr ""));
              StStateLine (get_default info "stateTitle" (PStr ""));
              StVenueLine (get_default (section_of info "venueInfo") "ground" (PStr ""))
                          (get_default (section_of info "venueInfo") "city" (PStr ""));
              StStartLine (format_time local_time_text (get info "startDate"));
              StEndLine (format_time local_time_text (get info "endDate")) ])%list).
Proof.
  intros I S info T1 T2 V. unfold show_match.
  cbn [as_dict]. rewrite bind_lift_ok.
  rewrite (as_dict_section _ _ I), bind_lift_ok. fold info.
  rewrite (as_dict_section _ _ T1), bind_lift_ok.
  rewrite (as_dict_section _ _ T2), bind_lift_ok.
  unfold bind at 1 2 3 4, say at 1 2 3 4.
  rewrite (as_dict_section _ _ V), bind_lift_ok.
  unfold bind at 1 2 3, say at 1 2 3.
  unfold get_default at 1. rewrite S. cbn [as_dict]. rewrite bind_lift_ok.
  unfold show_score, bind, lift, ret. cbn.
  rewrite <- !app_assoc. reflexivity.
Qed.

(** X16: The empty-mapping default only stands for an absent key: a
    [matchInfo] that is present but is not a mapping, such as a JSON null,
    makes the match raise [AttributeError] before anything is shown. *)
Theorem present_null_section_raises (m : dict) (v : pyval) (tr : list match_event) :
  lookup "matchInfo" m = Some v ->
  is_dict v = false ->
  show_match local_time_text (PDict m) tr = (Raise AttributeError, tr).
Proof.
  intros L D. unfold show_match. cbn [as_dict]. rewrite bind_lift_ok.
  rewrite (as_dict_not_dict _ _ _ L D). reflexivity.
Qed.

End OneMatch.

End LivePageFacts.

(* ================================================================== *)
(** ** The API client *)
(* ================================================================== *)

Module ApiClientFacts.

Import Normalizer ApiClient.

(** The key is not usable: unset, or set to the empty text. *)
Definition no_key (environ : list (string * string)) : Prop :=
  lookup "RAPIDAPI_KEY" environ = None \/ lookup "RAPIDAPI_KEY" environ = Some "".

(** The request the client makes for [path] with the key [key]. *)
Definition request_for (environ : list (string * string)) (key path : string)
           (ps : option (list (string * string))) (t : Z) : http_request :=
  {| url := BASE_URL ++ path;
     headers := [ ("x-rapidapi-key", key);
                  ("x-rapidapi-host",
                   match lookup "RAPIDAPI_HOST" environ with
                   | Some host => host
                   | None => "cricbuzz-cricket.p.rapidapi.com"
                   end) ];
     params := ps;
     timeout := t |}.

Section Client.

Variable environ : list (string * string).
Variable N : network.
Variable py_str : pyval -> string.

Lemma no_key_headers : no_key environ -> _get_headers environ = inl missing_key_msg.
Proof. unfold _get_headers. intros [-> | ->]; reflexivity. Qed.

Lemma key_headers (key : string) :
  lookup "RAPIDAPI_KEY" environ = Some key -> key <> "" ->
  _get_headers environ = inr (headers (request_for environ key "" None 0)).
Proof.
  unfold _get_headers. intros -> Hk.
  destruct (String.eqb_spec key ""); [contradiction | reflexivity].
Qed.

(** X17: Without a usable key nothing is sent: every call of the client ends
    with the [CricbuzzAPIError] that tells how to set the key, and the
    scorecard page shows that one error. *)
Theorem no_key_no_request (w : internet N) :
  no_key environ ->
  (forall path ps t,
      _request environ N py_str path ps t w = (CricbuzzAPIError missing_key_msg, w))
  /\ get_live_matches environ N py_str w = (CricbuzzAPIError missing_key_msg, w)
  /\ get_international_series environ N py_str w
     = (CricbuzzAPIError missing_key_msg, w)
  /\ (forall id,
         get_match_scorecard environ N py_str id w
         = (CricbuzzAPIError missing_key_msg, w)
         /\ get_series_matches environ N py_str id w
            = (CricbuzzAPIError missing_key_msg, w)
         /\ scorecard_page environ N py_str id w
            = ((Ok tt, [StError missing_key_msg]), w)).
Proof.
  intros K.
  assert (R : forall path ps t,
             _request environ N py_str path ps t w
             = (CricbuzzAPIError missing_key_msg, w)).
  { intros. unfold _request. rewrite (no_key_headers K). reflexivity. }
  repeat split; try apply R.
  unfold scorecard_page, get_match_scorecard. rewrite R. reflexivity.
Qed.

(** X18: A call of the client returns a body exactly when the key is set, the
    one GET it sends (to the base address followed by the path, with the
    two RapidAPI headers) is answered with status 200, and that answer
    decodes as JSON; the body is returned as decoded.  Any other status is
    an error, whatever its body. *)
Theorem request_returns_body_iff
        (path : string) (ps : option (list (string * string))) (t : Z)
        (w : internet N) (body : pyval) (w' : internet N) :
  _request environ N py_str path ps t w = (Fetched body, w')
  <-> exists key resp s,
      lookup "RAPIDAPI_KEY" environ = Some key
      /\ key <> ""
      /\ http_get N (state w) (request_for environ key path ps t) = (s, Responded resp)
      /\ status_code resp = 200%Z
      /\ json resp = inr body
      /\ w' = {| state := s;
                 sent := (sent w ++ [request_for environ key path ps t])%list |}.
Proof.
  unfold _request, _get_headers. split.
  - intros H. destruct (lookup "RAPIDAPI_KEY" environ) as [key|]; [|discriminate H].
    destruct (String.eqb_spec key "") as [|Hk]; [discriminate H|].
    fold (request_for environ key path ps t) in H.
    destruct (http_get N (state w) _) as [s [e|resp]] eqn:G; [discriminate H|].
    destruct (Z.eqb_spec (status_code resp) 200) as [S|S]; cbn [negb] in H;
      [|discriminate H].
    destruct (json resp) as [e|b] eqn:J; [discriminate H|].
    injection H as <- <-. exists key, resp, s. repeat split; assumption.
  - intros (key & resp & s & -> & Hk & G & S & J & ->).
    destruct (String.eqb_spec key ""); [contradiction|].
    fold (request_for environ key path ps t). rewrite G, S, J. reflexivity.
Qed.

(** X19: Whatever the network does, the scorecard page sends at most one GET,
    to the match-centre address of the match, and every failure of that
    call - no key, no connection, a status other than 200, a body that is
    not JSON - ends as one [st.error] with its message, with no exception
    raised. *)
Theorem scorecard_page_shows_failures (match_id : pyval) (w : internet N) :
  (sent (snd (scorecard_page environ N py_str match_id w)) = sent w
   \/ exists req,
       sent (snd (scorecard_page environ N py_str match_id w))
       = (sent w ++ [req])%list
       /\ url req = BASE_URL ++ "/mcenter/v1/" ++ py_str match_id
       /\ timeout req = 10%Z)
  /\ (forall msg,
         fst (get_match_scorecard environ N py_str match_id w) = CricbuzzAPIError msg ->
         fst (scorecard_page environ N py_str match_id w) = (Ok tt, [StError msg])).
Proof.
  unfold scorecard_page, get_match_scorecard, _request. split.
  - destruct (_get_headers environ) as [msg|hs]; [left; reflexivity|].
    right. destruct (http_get N (state w) _) as [s [e|resp]].
    + eexists. cbn. repeat split.
    + destruct (negb _); [eexists; cbn; repeat split|].
      destruct (json resp); eexists; cbn; repeat split.
  - intros msg.
    destruct (_get_headers environ) as [m|hs].
    { cbn. intros H. injection H as <-. reflexivity. }
    destruct (http_get N (state w) _) as [s [e|resp]].
    { cbn. intros H. injection H as <-. reflexivity. }
    destruct (negb _).
    { cbn. intros H. injection H as <-. reflexivity. }
    destruct (json resp); cbn; intros H; [|discriminate H].
    injection H as <-. reflexivity.
Qed.

End Client.

End ApiClientFacts.

(* ================================================================== *)
(** ** The forms of the CRUD page *)
(* ================================================================== *)

Module CrudPageFacts.

Import Gateway GatewayFacts StripFacts GatewayExtra CrudPage.

Lemma mem_In (x : string) (l : list string) : mem x l = true <-> In x l.
Proof.
  unfold mem. rewrite existsb_exists. split.
  - intros (y & Hin & Q). apply String.eqb_eq in Q. subst. exact Hin.
  - intros H. exists x. split; [exact H | apply String.eqb_refl].
Qed.

Lemma py_index_In (x : string) (l : list string) :
  In x l -> exists i, py_index x l = Some i /\ nth_error l i = Some x.
Proof.
  induction l as [|y rest IH]; intros H; [contradiction|]. simpl.
  destruct (String.eqb_spec y x) as [->|Hne].
  - exists 0. split; reflexivity.
  - destruct H as [->|H]; [contradiction|].
    destruct (IH H) as (i & Hi & Hn). exists (S i). rewrite Hi. split; [reflexivity|exact Hn].
Qed.

Lemma find_first {A} (f : A -> bool) (pre : list A) (x : A) (post : list A) :
  (forall y, In y pre -> f y = false) -> f x = true ->
  find f (pre ++ x :: post) = Some x.
Proof.
  intros Hpre Hx. induction pre as [|y pre IH]; simpl.
  - rewrite Hx. reflexivity.
  - rewrite (Hpre y (or_introl eq_refl)). apply IH.
    intros z Hz. apply Hpre. right. exact Hz.
Qed.

(** X20: The database and the table preselected by the page are entries of the
    lists they are looked up in, so that [index] finds them and never
    raises; the database is [cricbuzz_db] whenever it is there, and the
    table is the first of the priority tables that is there (every
    priority table before it being absent), or else the first table. *)
Theorem preselection_is_listed (names : list string) :
  names <> [] ->
  (exists i, py_index (default_db names) names = Some i
             /\ nth_error names i = Some (default_db names))
  /\ (exists i, py_index (default_table names) names = Some i
                /\ nth_error names i = Some (default_table names))
  /\ (In "cricbuzz_db" names -> default_db names = "cricbuzz_db")
  /\ (In "players" names -> default_table names = "players")
  /\ ((forall t, In t priority_tables -> ~ In t names) ->
      default_table names = hd "" names)
  /\ (In (default_table names) priority_tables \/ default_table names = hd "" names)
  /\ (forall before t after,
         priority_tables = (before ++ t :: after)%list ->
         In t names ->
         (forall t', In t' before -> ~ In t' names) ->
         default_table names = t)
  /\ (~ In "cricbuzz_db" names -> default_db names = hd "" names).
Proof.
  intros NE. destruct names as [|first rest]; [contradiction|].
  split; [|split; [|split; [|split; [|split; [|split; [|split]]]]]].
  - apply py_index_In. unfold default_db.
    destruct (mem "cricbuzz_db" (first :: rest)) eqn:M;
      [apply mem_In, M | left; reflexivity].
  - apply py_index_In. unfold default_table.
    destruct (find _ priority_tables) as [t|] eqn:F; [|left; reflexivity].
    apply find_some in F as [_ F]. apply mem_In, F.
  - intros H. unfold default_db. apply mem_In in H. rewrite H. reflexivity.
  - intros H. unfold default_table, priority_tables. cbn [find].
    apply mem_In in H. rewrite H. reflexivity.
  - intros H. unfold default_table.
    destruct (find _ priority_tables) as [t|] eqn:F; [|reflexivity].
    apply find_some in F as [Hin F]. apply mem_In in F.
    exfalso. exact (H _ Hin F).
  - unfold default_table.
    destruct (find _ priority_tables) as [t|] eqn:F; [|right; reflexivity].
    apply find_some in F as [Hin _]. left. exact Hin.
  - intros before t after P Hin Hbefore. unfold default_table. rewrite P.
    rewrite (find_first (fun t0 => mem t0 (first :: rest)) before t after);
      [reflexivity | | apply mem_In, Hin].
    intros y Hy. destruct (mem y (first :: rest)) eqn:M; [|reflexivity].
    apply mem_In in M. exfalso. exact (Hbefore y Hy M).
  - intros H. unfold default_db.
    destruct (mem "cricbuzz_db" (first :: rest)) eqn:M; [|reflexivity].
    apply mem_In in M. contradiction.
Qed.

Section Forms.

Variable E : engine.
Variables h u p : string.
Variable db : cell.
Variable table : string.

Let args : conn_args :=
  {| host := h; user := u; password := p; database := db |}.

(** X21: The "Run SELECT" button: a text that is blank, or that does not start
    with [select] once trimmed and lowered, is turned down by the page
    with no call made; any other text reaches [run_select] trimmed: once
    the connection is open the query sent is the typed text without its
    surrounding whitespace, a frame shown is the server's answer to that
    text, and [run_select] never answers with its own "Only SELECT"
    error. *)
Theorem select_form_guard (custom_sql : string) (w : world E) :
  let accepted := startswith (lower (strip custom_sql)) "select" in
  (accepted = false ->
   snd (submit_select E h u p db custom_sql w) = w
   /\ (fst (submit_select E h u p db custom_sql w)
       = [CrudWarning "Please enter a SELECT query."]
       \/ fst (submit_select E h u p db custom_sql w)
          = [CrudError "Only SELECT queries are allowed in this section."]))
  /\ (accepted = true ->
      exists rest,
        log (snd (submit_select E h u p db custom_sql w))
        = (log w ++ Connect args :: rest)%list)
  /\ (forall msg,
         ~ In (CrudFailed "Query" (ValueError msg))
              (fst (submit_select E h u p db custom_sql w)))
  /\ (accepted = true ->
      forall s, connect E (srv w) args = (s, None) ->
      exists rest,
        log (snd (submit_select E h u p db custom_sql w))
        = (log w ++ Connect args :: ReadSql db (strip custom_sql) :: rest)%list
        /\ (rest = [] \/ rest = [Close db])
        /\ fst (submit_select E h u p db custom_sql w)
           = match read_sql E s db (strip custom_sql) with
             | (_, inr df) => [CrudDataframe df]
             | (_, inl msg) => [CrudFailed "Query" (PandasDatabaseError msg)]
             end)
  /\ (forall df,
         In (CrudDataframe df) (fst (submit_select E h u p db custom_sql w)) ->
         (exists s s', read_sql E s db (strip custom_sql) = (s', inr df))
         /\ log (snd (submit_select E h u p db custom_sql w))
            = (log w ++ [Connect args; ReadSql db (strip custom_sql); Close db])%list).
Proof.
  intros accepted. unfold submit_select. fold accepted.
  destruct (strip custom_sql =? "") eqn:B.
  { apply String.eqb_eq in B.
    assert (A : accepted = false) by (unfold accepted; rewrite B; reflexivity).
    split; [|split; [|split; [|split]]]; cbn; auto.
    - rewrite A. discriminate.
    - intros msg [H|[]]. discriminate H.
    - rewrite A. discriminate.
    - intros df [H|[]]. discriminate H. }
  destruct accepted eqn:A; cbn [negb].
  2:{ split; [|split; [|split; [|split]]]; cbn; auto; try discriminate.
      - intros msg [H|[]]. discriminate H.
      - intros df [H|[]]. discriminate H. }
  pose proof (run_select_accepted E h u p db (strip custom_sql) w) as R.
  rewrite strip_idempotent in R. unfold accepted in A. specialize (R A).
  rewrite R. split; [discriminate|]. split; [|split; [|split]].
  - intros _. run_db; eexists; cbn [snd log]; close_log.
  - intros msg. run_db; cbn [fst]; intros [H|[]]; discriminate H.
  - intros _ s C.
    unfold create_connection, pd_read_sql, close, bind, ret. cbn [srv log].
    fold args. rewrite C. cbn [srv log].
    destruct (read_sql E s db (strip custom_sql)) as [s' [msg|df]];
      cbn [fst snd log]; eexists;
      (split; [close_log|]); (split; [auto | reflexivity]).
  - intros df.
    unfold create_connection, pd_read_sql, close, bind, ret. cbn [srv log].
    fold args.
    destruct (connect E (srv w) args) as [s [msg|]]; cbn [srv log fst snd].
    { intros [H|[]]. discriminate H. }
    destruct (read_sql E s db (strip custom_sql)) as [s' [msg|df']] eqn:Q;
      cbn [fst snd log]; intros [H|[]]; [discriminate H|].
    injection H as <-. split; [exists s, s'; exact Q | close_log].
Qed.

(** X22: What the forms display is what was executed: a statement shown by the
    delete or the update form is the text of the one statement sent to
    the server, on a connection that was then closed, and it is built
    from the typed clauses without their surrounding whitespace. *)
Theorem shown_statement_was_executed (w : world E) :
  (forall where_clause events w' sql,
      submit_delete E h u p db table where_clause w = (events, w') ->
      In (CrudCode sql) events ->
      sql = "DELETE FROM `" ++ table ++ "` WHERE " ++ strip where_clause ++ ";"
      /\ log w' = (log w ++ [Connect args; Execute db sql []; Close db])%list)
  /\ (forall set_part where_part events w' sql,
         submit_update E h u p db table set_part where_part w = (events, w') ->
         In (CrudCode sql) events ->
         sql = "UPDATE `" ++ table ++ "` SET " ++ strip set_part
                ++ " WHERE " ++ strip where_part ++ ";"
         /\ log w' = (log w ++ [Connect args; Execute db sql []; Close db])%list).
Proof.
  split.
  - intros where_clause events w' sql H Hin. unfold submit_delete in H.
    destruct (strip where_clause =? "") eqn:B.
    { injection H as <- _. destruct Hin as [Hin|[]]. discriminate Hin. }
    unfold delete_rows in H. rewrite strip_idempotent, B in H.
    run_db_in H; injection H as <- <-;
      cbn in Hin; try (destruct Hin as [Hin|[]]; discriminate Hin).
    destruct Hin as [Hin|[Hin|[]]]; [|discriminate Hin].
    injection Hin as <-. split; [reflexivity | cbn [log]; close_log].
  - intros set_part where_part events w' sql H Hin. unfold submit_update in H.
    destruct (strip set_part =? "") eqn:B1; cbn [orb] in H.
    { injection H as <- _. destruct Hin as [Hin|[]]. discriminate Hin. }
    destruct (strip where_part =? "") eqn:B2.
    { injection H as <- _. destruct Hin as [Hin|[]]. discriminate Hin. }
    unfold execute_update in H. rewrite !strip_idempotent, B1, B2 in H.
    run_db_in H; injection H as <- <-;
      cbn in Hin; try (destruct Hin as [Hin|[]]; discriminate Hin).
    destruct Hin as [Hin|[Hin|[]]]; [|discriminate Hin].
    injection Hin as <-. split; [reflexivity | cbn [log]; close_log].
Qed.

(** X23: The delete and update forms never let the gateway refuse a clause: a
    blank WHERE (or SET) clause gets a warning with no call made, and
    otherwise the gateway's own "empty clause" errors cannot occur. *)
Theorem forms_stop_blank_clauses (w : world E) :
  (forall where_clause,
      all_space where_clause = true ->
      submit_delete E h u p db table where_clause w
      = ([CrudWarning "WHERE clause cannot be empty for delete."], w))
  /\ (forall set_part where_part,
         all_space set_part = true \/ all_space where_part = true ->
         submit_update E h u p db table set_part where_part w
         = ([CrudWarning "Both SET and WHERE clauses are required."], w))
  /\ (forall where_clause msg,
         ~ In (CrudFailed "Delete" (ValueError msg))
              (fst (submit_delete E h u p db table where_clause w)))
  /\ (forall set_part where_part msg,
         ~ In (CrudFailed "Update" (ValueError msg))
              (fst (submit_update E h u p db table set_part where_part w))).
Proof.
  repeat split.
  - intros where_clause B. unfold submit_delete.
    rewrite (strip_eqb_blank _ B). reflexivity.
  - intros set_part where_part B. unfold submit_update.
    rewrite !strip_blank_eqb. destruct B as [-> | ->];
      [|rewrite orb_true_r]; reflexivity.
  - intros where_clause msg. unfold submit_delete.
    destruct (strip where_clause =? "") eqn:B.
    { intros [H|[]]. discriminate H. }
    unfold delete_rows. rewrite strip_idempotent, B.
    run_db; cbn; intros H; repeat (destruct H as [H|H]; try discriminate H); exact H.
  - intros set_part where_part msg. unfold submit_update.
    destruct (strip set_part =? "") eqn:B1; cbn [orb].
    { intros [H|[]]. discriminate H. }
    destruct (strip where_part =? "") eqn:B2.
    { intros [H|[]]. discriminate H. }
    unfold execute_update. rewrite !strip_idempotent, B1, B2.
    run_db; cbn; intros H; repeat (destruct H as [H|H]; try discriminate H); exact H.
Qed.

End Forms.

End CrudPageFacts.

(* ================================================================== *)
(** ** The theorems above, on the fixtures *)
(* ================================================================== *)

Module Checks.

Import Normalizer Gateway.

Definition cricbuzz : cell := CStr "cricbuzz_db".

Lemma delete_rows_statement_witness :
  delete_rows Fixtures.office "127.0.0.1" "root" "" cricbuzz "players"
              "player_id = 2" Fixtures.office0
  = delete_rows Fixtures.office "127.0.0.1" "root" "" cricbuzz "players"
                "  player_id = 2 " Fixtures.office0
  /\ fst (delete_rows Fixtures.office "127.0.0.1" "root" "" cricbuzz "players"
                      "  player_id = 2 " Fixtures.office0)
     = Ok (1%Z, "DELETE FROM `players` WHERE player_id = 2;").
Proof.
  split; [|reflexivity].
  apply (GatewayExtra.delete_rows_statement Fixtures.office "127.0.0.1" "root" ""
           cricbuzz "players" "  player_id = 2 " Fixtures.office0).
  reflexivity.
Defined.

Lemma execute_update_statement_witness :
  execute_update Fixtures.office "127.0.0.1" "root" "" cricbuzz "players"
                 "country = 'IND'" "player_id = 2" Fixtures.office0
  = execute_update Fixtures.office "127.0.0.1" "root" "" cricbuzz "players"
                   " country = 'IND'  " " player_id = 2" Fixtures.office0
  /\ fst (execute_update Fixtures.office "127.0.0.1" "root" "" cricbuzz "players"
                         " country = 'IND'  " " player_id = 2" Fixtures.office0)
     = Ok (2%Z, "UPDATE `players` SET country = 'IND' WHERE player_id = 2;").
Proof.
  split; [|reflexivity].
  apply (GatewayExtra.execute_update_statement Fixtures.office "127.0.0.1" "root" ""
           cricbuzz "players" " country = 'IND'  " " player_id = 2" Fixtures.office0);
    reflexivity.
Defined.

Lemma insert_row_binds_values_witness :
  exists sql sql',
    fst (insert_row Sample.mysql "127.0.0.1" "root" "" cricbuzz "players"
                    [("name", CStr "Gill"); ("country", CStr "IND")] Sample.w0)
    = Ok (1%Z, sql)
    /\ fst (insert_row Sample.mysql "127.0.0.1" "root" "" cricbuzz "players"
                       [("name", CStr "'); DROP TABLE players; --"); ("country", CNull)]
                       Sample.after_fetch)
       = Ok (1%Z, sql')
    /\ sql = sql'.
Proof.
  eexists. eexists. split; [reflexivity|]. split; [reflexivity|].
  refine (proj2 (GatewayExtra.insert_row_binds_values Sample.mysql "127.0.0.1" "root" ""
                   cricbuzz "players"
                   [("name", CStr "Gill"); ("country", CStr "IND")]
                   [("name", CStr "'); DROP TABLE players; --"); ("country", CNull)]
                   Sample.w0 Sample.after_fetch)
            eq_refl 1%Z _
            (snd (insert_row Sample.mysql "127.0.0.1" "root" "" cricbuzz "players"
                    [("name", CStr "Gill"); ("country", CStr "IND")] Sample.w0))
            1%Z _
            (snd (insert_row Sample.mysql "127.0.0.1" "root" "" cricbuzz "players"
                    [("name", CStr "'); DROP TABLE players; --"); ("country", CNull)]
                    Sample.after_fetch))
            eq_refl eq_refl).
Defined.

Lemma fetch_table_bad_limit_witness :
  fetch_table Sample.mysql "127.0.0.1" "root" "" cricbuzz "players" (PStr "ten")
              Sample.w0
  = (Raise (ValueError "invalid literal for int() with base 10: 'ten'"),
     Build_world Sample.mysql 0 [Connect (Sample.root_at cricbuzz)])
  /\ fetch_table Sample.mysql "127.0.0.1" "root" "" cricbuzz "players"
                 (PStr (String (ascii_of_nat 28) "5")) Sample.w0
     = (Raise (ValueError "invalid literal for int() with base 10: '\x1c5'"),
        Build_world Sample.mysql 0 [Connect (Sample.root_at cricbuzz)]).
Proof.
  split.
  - apply (GatewayExtra.fetch_table_bad_limit Sample.mysql "127.0.0.1" "root" ""
             cricbuzz "players" (PStr "ten") _ Sample.w0 0);
      [left; reflexivity | reflexivity].
  - apply (GatewayExtra.fetch_table_bad_limit Sample.mysql "127.0.0.1" "root" ""
             cricbuzz "players" (PStr (String (ascii_of_nat 28) "5")) _ Sample.w0 0);
      [left; reflexivity | reflexivity].
Defined.

Lemma discovery_skips_refused_database_witness :
  fst (discover_all Fixtures.office "127.0.0.1" "root" ""
         [CStr "vault"; cricbuzz; CStr "archive"] [] Fixtures.office0)
  = fst (discover_all Fixtures.office "127.0.0.1" "root" ""
           [cricbuzz; CStr "archive"] [] Fixtures.office0).
Proof.
  apply (proj2 (DiscoveryExtra.discovery_skips_refused_database Fixtures.office
                  "127.0.0.1" "root" "")
           (CStr "vault") [cricbuzz; CStr "archive"] [] Fixtures.office0
           "Access denied for user to database 'vault'"); reflexivity.
Defined.

Lemma list_databases_sorted_witness :
  exists schema,
    get_mysql_schema Fixtures.office "127.0.0.1" "root" "" Fixtures.office0
    = (Ok schema,
       snd (Catalog.list_databases Fixtures.office "127.0.0.1" "root" ""
              Fixtures.office0))
    /\ Permutation (map fst schema) [CStr "archive"; cricbuzz]
    /\ Sorted CatalogFacts.cell_le [CStr "archive"; cricbuzz]
    /\ Forall (fun name => in_excluded name = false) [CStr "archive"; cricbuzz].
Proof.
  apply (CatalogFacts.list_databases_sorted Fixtures.office "127.0.0.1" "root" ""
           Fixtures.office0). reflexivity.
Defined.

Lemma unknown_names_give_empty_answers_witness :
  Catalog.list_tables Fixtures.office "127.0.0.1" "root" "" (CStr "sys")
                      Fixtures.office0
  = (Ok [], snd (get_mysql_schema Fixtures.office "127.0.0.1" "root" ""
                   Fixtures.office0))
  /\ forall table,
      Catalog.get_table_columns Fixtures.office "127.0.0.1" "root" "" (CStr "sys")
                                table Fixtures.office0
      = (Ok [], snd (get_mysql_schema Fixtures.office "127.0.0.1" "root" ""
                       Fixtures.office0)).
Proof.
  refine (proj1 (proj2 (CatalogFacts.unknown_names_give_empty_answers
                          Fixtures.office "127.0.0.1" "root" "" Fixtures.office0
                          (match fst (get_mysql_schema Fixtures.office "127.0.0.1"
                                        "root" "" Fixtures.office0) with
                           | Ok schema => schema
                           | Raise _ => []
                           end)
                          _ eq_refl)) "sys" _).
  simpl. tauto.
Defined.

Lemma innings_are_numbered_from_one_witness :
  NormalizerExtra.subheader_numbers
    (snd (show_innings_scorecard (ApiData Fixtures.scorecard_document) []))
  = seq 1 2
  /\ exists inns,
      [PDict Sample.innings_by_list; PDict Sample.innings_by_id] = map PDict inns
      /\ NormalizerExtra.subheaders
           (snd (show_innings_scorecard (ApiData Fixtures.scorecard_document) []))
         = combine (seq 1 (List.length inns)) (map bat_team_name inns).
Proof.
  apply (NormalizerExtra.innings_are_numbered_from_one
           [("scorecard", PList [PDict Sample.innings_by_list;
                                 PDict Sample.innings_by_id])]
           [PDict Sample.innings_by_list; PDict Sample.innings_by_id]);
    reflexivity.
Defined.

Lemma series_offered_are_proper_witness :
  exists options,
    series_options Fixtures.show (fun s => s) Fixtures.live_document = Ok options
    /\ keys options = ["England tour of India (International)"]
    /\ LivePageFacts.proper_options options.
Proof.
  eexists. split; [reflexivity|]. split; [reflexivity|].
  apply (LivePageFacts.series_offered_are_proper Fixtures.show (fun s => s)
           Fixtures.live_document). reflexivity.
Defined.

Lemma match_without_score_witness :
  LivePage.show_match Fixtures.clock (PDict Fixtures.upcoming_match) []
  = (Ok tt,
     [ LivePage.StMatchSubheader (PStr "India") (PStr "England");
       LivePage.StMatchLine (PStr "1st ODI") (PStr "ODI");
       LivePage.StStatusLine (PStr "Match starts at 09:00 GMT");
       LivePage.StStateLine (PStr "");
       LivePage.StVenueLine (PStr "Eden Gardens") (PStr "Kolkata");
       LivePage.StStartLine "12 Mar 2025, 05:30 PM";
       LivePage.StEndLine "N/A" ]).
Proof.
  apply (LivePageFacts.match_without_score Fixtures.clock Fixtures.upcoming_match []);
    reflexivity.
Defined.

Lemma present_null_section_raises_witness :
  LivePage.show_match Fixtures.clock (PDict [("matchInfo", PNone)]) []
  = (Raise AttributeError, []).
Proof.
  apply (LivePageFacts.present_null_section_raises Fixtures.clock
           [("matchInfo", PNone)] PNone []); reflexivity.
Defined.

Lemma no_key_no_request_witness :
  ApiClient.scorecard_page [("RAPIDAPI_KEY", "")] Fixtures.rapidapi Fixtures.show
                           (PInt 100) Fixtures.online
  = ((Ok tt, [StError ApiClient.missing_key_msg]), Fixtures.online).
Proof.
  apply (ApiClientFacts.no_key_no_request [("RAPIDAPI_KEY", "")] Fixtures.rapidapi
           Fixtures.show Fixtures.online).
  right. reflexivity.
Defined.

Lemma request_returns_body_iff_witness :
  fst (ApiClient.get_match_scorecard Fixtures.with_key Fixtures.rapidapi Fixtures.show
         (PInt 100) Fixtures.online)
  = ApiClient.Fetched Fixtures.scorecard_document.
Proof.
  refine (f_equal fst
            (proj2 (ApiClientFacts.request_returns_body_iff Fixtures.with_key
                      Fixtures.rapidapi Fixtures.show "/mcenter/v1/100" None 10
                      Fixtures.online Fixtures.scorecard_document
                      (ApiClient.Build_internet Fixtures.rapidapi 1
                         [ApiClientFacts.request_for Fixtures.with_key "s3cr3t"
                            "/mcenter/v1/100" None 10])) _)).
  exists "s3cr3t". eexists. exists 1.
  repeat split; try reflexivity. discriminate.
Defined.

Lemma preselection_is_listed_witness :
  CrudPage.default_table ["batting_data"; "players"; "venues"] = "players"
  /\ CrudPage.default_table ["recent_matches"; "venues"] = "recent_matches"
  /\ exists i,
      CrudPage.py_index (CrudPage.default_table ["batting_data"; "players"; "venues"])
                        ["batting_data"; "players"; "venues"] = Some i
      /\ nth_error ["batting_data"; "players"; "venues"] i
         = Some (CrudPage.default_table ["batting_data"; "players"; "venues"]).
Proof.
  destruct (CrudPageFacts.preselection_is_listed ["batting_data"; "players"; "venues"])
    as (_ & T & _ & P & _); [discriminate|].
  destruct (CrudPageFacts.preselection_is_listed ["recent_matches"; "venues"])
    as (_ & _ & _ & _ & _ & _ & F & _); [discriminate|].
  split; [apply P; simpl; tauto|]. split; [|exact T].
  apply (F ["players"] "recent_matches"
           ["series_matches"; "top_odi_runs"; "venues"; "players_stats";
            "combined_matches"; "batting_data"; "bowling_data";
            "batters_batting_data"; "bowlers_bowling_venue_data"]).
  - reflexivity.
  - simpl. tauto.
  - intros t' [<-|[]] [H|[H|[]]]; discriminate H.
Defined.

Lemma tables_have_fixed_columns_witness :
  exists rows,
    batsmen_list Sample.innings_by_id = Ok rows
    /\ List.length rows = 2
    /\ Forall2 (fun batsman row => batting_row batsman = Ok row
                                   /\ keys row = NormalizerExtra.batting_columns)
               [Sample.rohit; Sample.virat] rows.
Proof.
  eexists. split; [reflexivity|].
  exact (proj1 (NormalizerExtra.tables_have_fixed_columns Sample.innings_by_id)
           _ eq_refl).
Defined.

Lemma format_time_not_available_witness :
  LivePage.format_time Fixtures.clock (PStr (String (ascii_of_nat 31) "1741800600000"))
  = "N/A"
  /\ LivePage.format_time Fixtures.clock (PStr " 1741800600000 ")
     = LivePage.format_time Fixtures.clock (PInt 1741800600000).
Proof.
  split.
  - apply (proj1 (proj2 (proj2 (LivePageFacts.format_time_not_available Fixtures.clock)))
             _ (ascii_of_nat 31)); reflexivity.
  - apply (proj1 (proj2 (proj2 (proj2
             (LivePageFacts.format_time_not_available Fixtures.clock))))
             " 1741800600000 " 1741800600000%Z); [reflexivity | discriminate].
Defined.

Lemma select_form_guard_witness :
  fst (CrudPage.submit_select Sample.mysql "127.0.0.1" "root" "" cricbuzz
         "  select * from players  " Sample.w0)
  = [CrudPage.CrudDataframe Sample.two_players]
  /\ log (snd (CrudPage.submit_select Sample.mysql "127.0.0.1" "root" "" cricbuzz
                 "  select * from players  " Sample.w0))
     = [ Connect (Sample.root_at cricbuzz);
         ReadSql cricbuzz "select * from players";
         Close cricbuzz ].
Proof.
  split; [reflexivity|].
  apply (proj2 (proj2 (proj2 (proj2
           (CrudPageFacts.select_form_guard Sample.mysql "127.0.0.1" "root" ""
              cricbuzz "  select * from players  " Sample.w0))))
           Sample.two_players).
  left. reflexivity.
Defined.

End Checks.
